(** * WalletAnalysis.tsx: a shallow embedding of the wallet summary component

    The component is a pure function of its props and of two pieces of hook
    state (the active tab, and one [error] flag per mounted [TokenLogo]).
    JavaScript values are modelled as follows:
    - a string is a [string]; one [ascii] stands for one code unit;
    - [undefined] where a string is expected is [None];
    - a [number] is a binary64 [float];
    - an expression that may throw evaluates to a [Completion]. *)

From Stdlib Require Import Strings.String Strings.Ascii Lists.List Bool Arith Lia.
From Stdlib Require Import Floats.
From stdpp Require Import base option list.

Open Scope string_scope.

(** ** The JavaScript operations the component relies on *)

Module JS.

(** Exceptions a render can end with. *)
Inductive Exception : Type :=
| TypeError
| RangeError.

Inductive Completion (A : Type) : Type :=
| Normal (a : A)
| Throw (e : Exception).

Arguments Normal {A} a.
Arguments Throw {A} e.

Definition bind {A B : Type} (c : Completion A) (k : A -> Completion B) : Completion B :=
  match c with
  | Normal a => k a
  | Throw e => Throw e
  end.

Notation "'do' x <- c ; k" := (bind c (fun x => k))
  (at level 10, x name, c at level 100, k at level 200).

(** [Array.prototype.map] with a callback that may throw: the elements are
    visited from left to right and the first exception aborts the whole map. *)
Fixpoint mapM {A B : Type} (f : A -> Completion B) (l : list A) : Completion (list B) :=
  match l with
  | [] => Normal []
  | x :: xs =>
      do y <- f x;
      do ys <- mapM f xs;
      Normal (y :: ys)
  end.

(** The line feed, written "\n" in the source. *)
Definition LF : ascii := "010"%char.
Definition nl : string := String LF "".

(** [s.startsWith(search)]. *)
Definition startsWith (s search : string) : bool := String.prefix search s.

(** [s.includes(search)]: some suffix of [s] starts with [search]. *)
Fixpoint includes (s search : string) : bool :=
  String.prefix search s ||
  match s with
  | "" => false
  | String _ s' => includes s' search
  end.

(** Puts a code unit in front of the first piece of a split. *)
Definition cons_head (c : ascii) (pieces : list string) : list string :=
  match pieces with
  | [] => [String c ""]
  | p :: ps => String c p :: ps
  end.

(** [split_from sep skip s]: the pieces of [s], of which the first [skip]
    code units belong to a separator that has just been matched.  The scan
    goes from left to right and takes the leftmost match each time. *)
Fixpoint split_from (sep : string) (skip : nat) (s : string) : list string :=
  match s with
  | "" => [""]
  | String c s' =>
      match skip with
      | S k => split_from sep k s'
      | O =>
          if String.prefix sep s
          then "" :: split_from sep (String.length sep - 1) s'
          else cons_head c (split_from sep 0 s')
      end
  end.

(** [s.split(sep)] for a string separator and no limit.  With the empty
    separator the result is the list of the code units. *)
Definition split (s sep : string) : list string :=
  match sep with
  | "" => map (fun c => String c "") (list_ascii_of_string s)
  | _ => split_from sep 0 s
  end.

(** [pieces.join(sep)], the inverse direction; used to describe inputs. *)
Fixpoint join (sep : string) (pieces : list string) : string :=
  match pieces with
  | [] => ""
  | [p] => p
  | p :: ps => p ++ sep ++ join sep ps
  end.

(** [s.slice(b, e)] for non-negative [b] and [e]. *)
Definition slice (s : string) (b e : nat) : string := String.substring b (e - b) s.

(** [toUpperCase] on one code unit.  The letters a-z (97-122) and the
    Latin-1 lower-case letters (224-254, without the division sign 247) move
    down by 32; every other code unit below 256 is its own upper-case form,
    except three whose upper-case form is not one code unit below 256: the
    micro sign (181, to U+039C), the sharp s (223, to "SS") and the y with
    diaeresis (255, to U+0178).  Strings with one of these three are outside
    what the model covers; statements about [toUpperCase] exclude them. *)
Definition upper (c : ascii) : ascii :=
  let n := nat_of_ascii c in
  if (Nat.leb 97 n && Nat.leb n 122)
     || (Nat.leb 224 n && Nat.leb n 254 && negb (Nat.eqb n 247))
  then ascii_of_nat (n - 32)
  else c.

Fixpoint toUpperCase (s : string) : string :=
  match s with
  | "" => ""
  | String c s' => String (upper c) (toUpperCase s')
  end.

(** [a || b] on strings: the empty string is the only falsy string. *)
Definition or_else (a b : string) : string :=
  match a with
  | "" => b
  | _ => a
  end.

(** [a || b] where [a] may also be [undefined]. *)
Definition or_default (a : option string) (b : string) : string :=
  match a with
  | Some s => or_else s b
  | None => b
  end.

(** A value interpolated in a template literal. *)
Definition interpolate (a : option string) : string :=
  match a with
  | Some s => s
  | None => "undefined"
  end.

End JS.

Import JS.

(** ** The props of the component *)

(** The tokens table reads [uiAmount], [valueUsd] and [priceUsd] through
    [?.]: at run time these three may be absent, which is [None]. *)
Module Token.
Record t : Type := {
  address : string;
  balance : float;
  chainId : string;
  decimals : float;
  logoURI : string;
  name : string;
  priceUsd : option float;
  symbol : string;
  uiAmount : option float;
  valueUsd : option float
}.
End Token.

Module BalanceChange.
Record t : Type := {
  address : string;
  amount : float;
  decimals : float;
  logoURI : string;
  name : string;
  symbol : string;
  uiAmount : float
}.
End BalanceChange.

Module ContractLabel.
Record t : Type := {
  address : string;
  metadata_icon : string;
  name : string
}.
End ContractLabel.

Module Transaction.
Record t : Type := {
  balanceChange : list BalanceChange.t;
  blockNumber : float;
  blockTime : string;
  contractLabel : ContractLabel.t;
  fee : float;
  formattedBlockTime : string;
  from : string;
  mainAction : string;
  status : bool;
  to : string;
  txHash : string
}.
End Transaction.

Module PnlItem.
Record t : Type := {
  token : string;
  amount : string
}.
End PnlItem.

Record WalletAnalysisProps : Type := {
  totalValue : float;
  tokenCount : float;
  topTokens : list Token.t;
  recentTransactions : list Transaction.t;
  swapActivity : string;
  overallPNL : string;
  pnlPercentage : string;
  pnlByToken : list PnlItem.t;
  analysis : string
}.

(** ** What a render produces *)

Inductive Icon : Type :=
| ArrowUpRight
| ArrowDownRight
| Activity
| DollarSign
| Coins
| ArrowRightLeft
| PieChart
| History
| Repeat.

(** The state of [useState("overview")]; only these four values are ever set. *)
Inductive Tab : Type :=
| overview
| tokens
| transactions
| swaps.

(** *** TokenLogo *)

Inductive LogoElement : Type :=
| Badge (text : string)
| Img (src alt : string).

(** One render of a [TokenLogo] instance whose hook state is [error].  The
    swap table passes what it destructured, which may be [undefined]. *)
Definition TokenLogo (symbol : option string) (error : bool) : Completion LogoElement :=
  let logoUrl :=
    "https://raw.githubusercontent.com/solana-labs/token-list/main/assets/mainnet/"
      ++ interpolate symbol ++ "/logo.png" in
  if error then
    match symbol with
    | Some s => Normal (Badge (toUpperCase (slice s 0 2)))
    | None => Throw TypeError
    end
  else Normal (Img (or_else logoUrl "/placeholder.svg") (interpolate symbol ++ " logo")).

(** The hook states of the mounted [TokenLogo] instances, in mount order;
    every instance starts with [useState(false)]. *)
Definition LogoStates : Type := list bool.

Definition mountLogos (symbols : list (option string)) : LogoStates :=
  map (fun _ => false) symbols.

(** The [onError] handler of instance [i]: [setError(true)]. *)
Definition onError (i : nat) (st : LogoStates) : LogoStates := <[i := true]> st.

Definition renderLogos (symbols : list (option string)) (st : LogoStates)
  : list (Completion LogoElement) :=
  zip_with TokenLogo symbols st.

(** *** DataCard *)

Record DataCard : Type := {
  title : string;
  value : string;
  icon : Icon;
  color : string
}.

(** *** The swaps tab *)

Record SwapRow : Type := {
  timestamp : option string;
  fromToken : option string;
  toToken : option string;
  amount : option string;
  usdEquivalent : option string
}.

Inductive SwapsView : Type :=
| SentinelMessage (text : string)
| SwapTable (rows : list SwapRow).

(** [const [, v] = swapDetails[i].split(": ")]: reading [split] off
    [undefined] throws; a missing second piece is [undefined]. *)
Definition detail (swapDetails : list string) (i : nat) : Completion (option string) :=
  match swapDetails !! i with
  | None => Throw TypeError
  | Some line => Normal (split line ": " !! 1)
  end.

(** The callback of [swapActivity.split("\n\n").map(...)].  Its second
    argument, the index, only serves as the React key of the row. *)
Definition swapRow (swap : string) : Completion SwapRow :=
  let swapDetails := tail (split swap nl) in
  do timestamp <- detail swapDetails 0;
  do fromToken <- detail swapDetails 1;
  do toToken <- detail swapDetails 2;
  do amount <- detail swapDetails 3;
  do usdEquivalent <- detail swapDetails 4;
  Normal {| timestamp := timestamp;
            fromToken := fromToken;
            toToken := toToken;
            amount := amount;
            usdEquivalent := usdEquivalent |}.

(** The text the upstream aggregation sends when there is no swap. *)
Definition sentinel : string := "No swap activity data available.".

Definition swapsTab (swapActivity : string) : Completion SwapsView :=
  if String.eqb swapActivity sentinel
  then Normal (SentinelMessage swapActivity)
  else
    do rows <- mapM swapRow (split swapActivity (nl ++ nl));
    Normal (SwapTable rows).

(** The records a swaps view shows, and the symbols of the [TokenLogo]
    instances it mounts (two per row). *)
Definition swapRecords (v : SwapsView) : list SwapRow :=
  match v with
  | SentinelMessage _ => []
  | SwapTable rows => rows
  end.

Definition swapLogos (v : SwapsView) : list (option string) :=
  flat_map (fun r => [fromToken r; toToken r]) (swapRecords v).

(** *** The overview, tokens and transactions tabs *)

Record PnlEntry : Type := {
  entryToken : string;
  entryClass : string;
  entryAmount : string
}.

Record Overview : Type := {
  cards : list DataCard;
  breakdown : option (list PnlEntry)
}.

Record TokenRow : Type := {
  tokenImgSrc : string;
  tokenImgAlt : string;
  tokenName : string;
  tokenSymbol : string;
  tokenBalance : string;
  tokenValue : string;
  tokenPrice : string
}.

Inductive TokensView : Type :=
| NoTokens (text : string)
| TokenTable (rows : list TokenRow).

Record TransactionRow : Type := {
  txAction : string;
  txTime : string;
  txImgSrc : string;
  txImgAlt : option string;
  txSymbol : option string;
  txAmount : option string
}.

Inductive TabContent : Type :=
| OverviewContent (o : Overview)
| TokensContent (t : TokensView)
| TransactionsContent (rows : list TransactionRow)
| SwapsContent (s : SwapsView).

Inductive View : Type :=
| NoPortfolioData
| Tabbed (activeTab : Tab) (content : TabContent).

Section Component.

(** Library functions the component calls: [Number.prototype.toFixed],
    [Number.prototype.toString], and date-fns' [formatDistanceToNow] applied
    to [new Date(blockTime)], which throws on an invalid date. *)
Variable toFixed : float -> nat -> string.
Variable toString : float -> string.
Variable formatDistanceToNow : string -> Completion string.

Definition overviewTab (p : WalletAnalysisProps) : Overview :=
  {| cards :=
       [ {| title := "Total Value";
            value := "$" ++ toFixed (totalValue p) 2;
            icon := DollarSign;
            color := "green" |};
         {| title := "Token Count";
            value := toString (tokenCount p);
            icon := Coins;
            color := "purple" |};
         {| title := "Overall PNL";
            value := overallPNL p;
            icon := if startsWith (overallPNL p) "-" then ArrowDownRight else ArrowUpRight;
            color := if startsWith (overallPNL p) "-" then "red" else "green" |};
         {| title := "PNL %";
            value := pnlPercentage p;
            icon := Activity;
            color := if startsWith (pnlPercentage p) "-" then "red" else "green" |} ];
     breakdown :=
       if Nat.ltb 0 (length (pnlByToken p))
       then Some (map (fun item =>
                         {| entryToken := PnlItem.token item;
                            entryClass :=
                              "text-lg font-bold " ++
                              (if startsWith (PnlItem.amount item) "-"
                               then "text-red-400" else "text-green-400");
                            entryAmount := PnlItem.amount item |})
                      (pnlByToken p))
       else None |}.

(** [token.x?.toFixed(n) || "N/A"]: the left operand is [undefined] when
    the number is absent. *)
Definition tokenRow (token : Token.t) : TokenRow :=
  {| tokenImgSrc := or_else (Token.logoURI token) "/placeholder.svg";
     tokenImgAlt := or_else (Token.name token) "Unknown Token";
     tokenName := or_else (Token.name token) "Unknown Token";
     tokenSymbol := "(" ++ or_else (Token.symbol token) "N/A" ++ ")";
     tokenBalance :=
       or_default ((fun x => toFixed x 4) <$> Token.uiAmount token) "N/A";
     tokenValue :=
       "$" ++ or_default ((fun x => toFixed x 2) <$> Token.valueUsd token) "N/A";
     tokenPrice :=
       "$" ++ or_default ((fun x => toFixed x 4) <$> Token.priceUsd token) "N/A" |}.

Definition tokensTab (p : WalletAnalysisProps) : TokensView :=
  if Nat.ltb 0 (length (topTokens p))
  then TokenTable (map tokenRow (topTokens p))
  else NoTokens "No tokens found in this wallet.".

(** [balanceChange[0]?.f]: [undefined] when the list is empty. *)
Definition transactionRow (transaction : Transaction.t) : Completion TransactionRow :=
  let first := Transaction.balanceChange transaction !! 0 in
  do time <- formatDistanceToNow (Transaction.blockTime transaction);
  Normal {| txAction := Transaction.mainAction transaction;
            txTime := time;
            txImgSrc := or_default (BalanceChange.logoURI <$> first) "/placeholder.svg";
            txImgAlt := BalanceChange.symbol <$> first;
            txSymbol := BalanceChange.symbol <$> first;
            txAmount := (fun b => toFixed (BalanceChange.uiAmount b) 6) <$> first |}.

Definition transactionsTab (p : WalletAnalysisProps) : Completion (list TransactionRow) :=
  mapM transactionRow (recentTransactions p).

Definition hasData (p : WalletAnalysisProps) : bool :=
  PrimFloat.ltb 0 (totalValue p)
  || PrimFloat.ltb 0 (tokenCount p)
  || Nat.ltb 0 (length (topTokens p))
  || Nat.ltb 0 (length (recentTransactions p)).

(** One render of the component with hook state [activeTab]. *)
Definition WalletAnalysis (p : WalletAnalysisProps) (activeTab : Tab) : Completion View :=
  if negb (hasData p) then Normal NoPortfolioData
  else
    match activeTab with
    | overview => Normal (Tabbed activeTab (OverviewContent (overviewTab p)))
    | tokens => Normal (Tabbed activeTab (TokensContent (tokensTab p)))
    | transactions =>
        do rows <- transactionsTab p;
        Normal (Tabbed activeTab (TransactionsContent rows))
    | swaps =>
        do v <- swapsTab (swapActivity p);
        Normal (Tabbed activeTab (SwapsContent v))
    end.

End Component.

(** ** Vocabulary of the statements *)

(** [s] without its first [n] code units. *)
Fixpoint drop_units (n : nat) (s : string) : string :=
  match n, s with
  | O, _ => s
  | S _, "" => ""
  | S k, String _ s' => drop_units k s'
  end.

(** [s] without its last code unit. *)
Fixpoint butlast (s : string) : string :=
  match s with
  | "" => ""
  | String c s' =>
      match s' with
      | "" => ""
      | String _ _ => String c (butlast s')
      end
  end.

(** What follows the first occurrence of [sep] in [s], if there is one. *)
Fixpoint after_first (s sep : string) : option string :=
  if String.prefix sep s then Some (drop_units (String.length sep) s)
  else
    match s with
    | "" => None
    | String _ s' => after_first s' sep
    end.

(** What precedes the first occurrence of [sep] in [s]; all of [s] when
    there is none. *)
Fixpoint before_first (s sep : string) : string :=
  if String.prefix sep s then ""
  else
    match s with
    | "" => ""
    | String c s' => String c (before_first s' sep)
    end.

(** The swap-activity text protocol: a block is a header line followed by
    [key: value] lines, blocks are separated by one blank line. *)
Record SwapBlock : Type := {
  header : string;
  details : list string
}.

Definition one_line (s : string) : Prop := includes s nl = false.

Definition key_value_line (s : string) : Prop :=
  one_line s /\ includes s ": " = true.

Definition well_formed_block (b : SwapBlock) : Prop :=
  one_line (header b) /\ 5 <= length (details b) /\ Forall key_value_line (details b).

Definition blockText (b : SwapBlock) : string := join nl (header b :: details b).

Definition swapText (blocks : list SwapBlock) : string :=
  join (nl ++ nl) (map blockText blocks).

(** The value a detail line carries for the table: the text between the
    first and the second [": "]. *)
Definition detailValue (line : string) : option string :=
  match after_first line ": " with
  | Some rest => Some (before_first rest ": ")
  | None => None
  end.

(** The record the table shows for a block with detail lines [d]. *)
Definition recordOfDetails (d : list string) : SwapRow :=
  {| timestamp := d !! 0 ≫= detailValue;
     fromToken := d !! 1 ≫= detailValue;
     toToken := d !! 2 ≫= detailValue;
     amount := d !! 3 ≫= detailValue;
     usdEquivalent := d !! 4 ≫= detailValue |}.

Definition recordOf (b : SwapBlock) : SwapRow := recordOfDetails (details b).

(** A record none of whose fields is [undefined]. *)
Definition complete (r : SwapRow) : Prop :=
  is_Some (timestamp r) /\ is_Some (fromToken r) /\ is_Some (toToken r)
  /\ is_Some (amount r) /\ is_Some (usdEquivalent r).

(** Sample inputs. *)
Definition sampleBlock : SwapBlock :=
  {| header := "Swap";
     details := ["Timestamp: 2024-01-01"; "From: SOL"; "To: USDC"; "Amount: 10";
                 "USD Equivalent: $150.00"] |}.

Definition laterBlock : SwapBlock :=
  {| header := "Swap on Jupiter";
     details := ["Timestamp: 2024-01-02"; "From: USDC"; "To: SOL"; "Amount: 75";
                 "USD Equivalent: $75.00"; "Note: routed"] |}.

Definition colonBlock : SwapBlock :=
  {| header := "Swap";
     details := ["Timestamp: 2024-01-01 10: 30"; "From: SOL"; "To: USDC"; "Amount: 10";
                 "USD Equivalent: $150.00"] |}.

Definition shortSwap : string := "Swap" ++ nl ++ "Timestamp: 2024-01-01" ++ nl ++ "From: SOL".


(** The two profit-and-loss cards of the overview. *)
Definition overallPnlCard (o : Overview) : option DataCard := cards o !! 2.
Definition pnlPercentCard (o : Overview) : option DataCard := cards o !! 3.

(** Stand-ins for the library functions, for examples whose outcome does not
    depend on what these return. *)
Definition sampleToFixed (x : float) (digits : nat) : string := "0".
Definition sampleToString (x : float) : string := "0".
Definition sampleDistance (blockTime : string) : Completion string := Normal "1 day ago".

Definition emptyTransaction : Transaction.t :=
  {| Transaction.balanceChange := [];
     Transaction.blockNumber := 1;
     Transaction.blockTime := "2024-01-01T00:00:00Z";
     Transaction.contractLabel :=
       {| ContractLabel.address := ""; ContractLabel.metadata_icon := "";
          ContractLabel.name := "" |};
     Transaction.fee := 5000;
     Transaction.formattedBlockTime := "";
     Transaction.from := "";
     Transaction.mainAction := "transfer";
     Transaction.status := true;
     Transaction.to := "";
     Transaction.txHash := "" |}.

Definition negativeSnapshot : WalletAnalysisProps :=
  {| totalValue := (-1)%float;
     tokenCount := 0%float;
     topTokens := [];
     recentTransactions := [];
     swapActivity := sentinel;
     overallPNL := "-12.34";
     pnlPercentage := "5.2%";
     pnlByToken := [];
     analysis := "" |}.

Definition lossSnapshot : WalletAnalysisProps :=
  {| totalValue := 150%float;
     tokenCount := 1%float;
     topTokens := [];
     recentTransactions := [];
     swapActivity := sentinel;
     overallPNL := "-12.34";
     pnlPercentage := "5.2%";
     pnlByToken := [];
     analysis := "" |}.

Definition gainSnapshot : WalletAnalysisProps :=
  {| totalValue := 0%float;
     tokenCount := 3%float;
     topTokens := [];
     recentTransactions := [];
     swapActivity := "";
     overallPNL := "-12.34";
     pnlPercentage := "-8%";
     pnlByToken := [];
     analysis := "other" |}.

(** The sign classification as the specification words it. *)
Module Spec.

Inductive SignClass : Type :=
| positive
| negative
| neutral.

Definition classifySign (s : string) : SignClass :=
  match s with
  | String c _ => if Ascii.eqb c "-"%char then negative else positive
  | "" => positive
  end.

Definition colorOf (c : SignClass) : string :=
  match c with
  | negative => "red"
  | _ => "green"
  end.

Definition arrowOf (c : SignClass) : Icon :=
  match c with
  | negative => ArrowDownRight
  | _ => ArrowUpRight
  end.

Definition textClassOf (c : SignClass) : string :=
  match c with
  | negative => "text-red-400"
  | _ => "text-green-400"
  end.

End Spec.

(** ** The tab bar *)

(** The value [activeTab] holds for each state. *)
Definition tabName (t : Tab) : string :=
  match t with
  | overview => "overview"
  | tokens => "tokens"
  | transactions => "transactions"
  | swaps => "swaps"
  end.

Record TabButtonProps : Type := {
  isActive : bool;
  onClick : Tab;
  tabIcon : Icon;
  label : string
}.

(** What a [TabButton] renders: the arguments it hands to [cn], its icon,
    its label, whether the underline is there, and the state its click sets. *)
Record TabButtonElement : Type := {
  buttonClasses : list string;
  buttonIcon : Icon;
  buttonLabel : string;
  underline : bool;
  buttonOnClick : Tab
}.

Definition TabButton (props : TabButtonProps) : TabButtonElement :=
  {| buttonClasses :=
       [ "flex flex-col items-center justify-center py-3 px-1 flex-1 transition-all duration-300 relative overflow-hidden";
         if isActive props then "text-purple-400 bg-gray-800"
         else "text-gray-400 hover:text-gray-200 hover:bg-gray-800" ];
     buttonIcon := tabIcon props;
     buttonLabel := label props;
     underline := isActive props;
     buttonOnClick := onClick props |}.

(** The four buttons of [WalletAnalysis], left to right. *)
Definition tabBar (activeTab : Tab) : list TabButtonElement :=
  [ TabButton {| isActive := String.eqb (tabName activeTab) "overview";
                 onClick := overview; tabIcon := PieChart; label := "Overview" |};
    TabButton {| isActive := String.eqb (tabName activeTab) "tokens";
                 onClick := tokens; tabIcon := Coins; label := "Tokens" |};
    TabButton {| isActive := String.eqb (tabName activeTab) "transactions";
                 onClick := transactions; tabIcon := History; label := "Transactions" |};
    TabButton {| isActive := String.eqb (tabName activeTab) "swaps";
                 onClick := swaps; tabIcon := Repeat; label := "Swaps" |} ].

(** ** More vocabulary *)

(** The five cells of a swap row, left to right. *)
Definition cells (r : SwapRow) : list (option string) :=
  [timestamp r; fromToken r; toToken r; amount r; usdEquivalent r].

(** The record of a block of text, whatever the text is. *)
Definition blockRecord (swap : string) : SwapRow :=
  recordOfDetails (tail (split swap nl)).


Definition usdcChange : BalanceChange.t :=
  {| BalanceChange.address := "EPjF";
     BalanceChange.amount := 1500000;
     BalanceChange.decimals := 6;
     BalanceChange.logoURI := "";
     BalanceChange.name := "USD Coin";
     BalanceChange.symbol := "USDC";
     BalanceChange.uiAmount := 1.5 |}.

Definition receivedTransaction : Transaction.t :=
  {| Transaction.balanceChange := [usdcChange];
     Transaction.blockNumber := 2;
     Transaction.blockTime := "2024-01-02T00:00:00Z";
     Transaction.contractLabel :=
       {| ContractLabel.address := ""; ContractLabel.metadata_icon := "";
          ContractLabel.name := "" |};
     Transaction.fee := 5000;
     Transaction.formattedBlockTime := "";
     Transaction.from := "a";
     Transaction.mainAction := "received";
     Transaction.status := true;
     Transaction.to := "b";
     Transaction.txHash := "h1" |}.

Definition sameRowTransaction : Transaction.t :=
  {| Transaction.balanceChange := [usdcChange; usdcChange];
     Transaction.blockNumber := 3;
     Transaction.blockTime := "2024-01-02T00:00:00Z";
     Transaction.contractLabel :=
       {| ContractLabel.address := "x"; ContractLabel.metadata_icon := "y";
          ContractLabel.name := "z" |};
     Transaction.fee := 1;
     Transaction.formattedBlockTime := "yesterday";
     Transaction.from := "c";
     Transaction.mainAction := "received";
     Transaction.status := false;
     Transaction.to := "d";
     Transaction.txHash := "h2" |}.

Definition unnamedToken : Token.t :=
  {| Token.address := "So11";
     Token.balance := 1;
     Token.chainId := "solana";
     Token.decimals := 9;
     Token.logoURI := "";
     Token.name := "";
     Token.priceUsd := Some 150%float;
     Token.symbol := "";
     Token.uiAmount := Some 1%float;
     Token.valueUsd := Some 150%float |}.

Definition unpricedToken : Token.t :=
  {| Token.address := "Bonk";
     Token.balance := 5;
     Token.chainId := "solana";
     Token.decimals := 5;
     Token.logoURI := "https://example.org/bonk.png";
     Token.name := "Bonk";
     Token.priceUsd := None;
     Token.symbol := "BONK";
     Token.uiAmount := Some 5%float;
     Token.valueUsd := None |}.


(** * Facts about the string operations *)

Section StringFacts.

Implicit Types (s p r sep : string) (c : ascii).

Lemma append_assoc s p r : (s ++ p) ++ r = s ++ p ++ r.
Proof. induction s as [|c s IH]; simpl; [reflexivity | now rewrite IH]. Qed.

Lemma append_empty_r s : s ++ "" = s.
Proof. induction s as [|c s IH]; simpl; [reflexivity | now rewrite IH]. Qed.

Lemma length_append s p : String.length (s ++ p) = String.length s + String.length p.
Proof. induction s as [|c s IH]; simpl; [reflexivity | now rewrite IH]. Qed.

Lemma prefix_empty_l s : String.prefix "" s = true.
Proof. destruct s; reflexivity. Qed.

Lemma prefix_cons_same c p s : String.prefix (String c p) (String c s) = String.prefix p s.
Proof. simpl. destruct (ascii_dec c c); [reflexivity | congruence]. Qed.

Lemma prefix_cons_other c d p s : c <> d -> String.prefix (String c p) (String d s) = false.
Proof. intros H. simpl. destruct (ascii_dec c d); [congruence | reflexivity]. Qed.

Lemma prefix_empty_r p : p <> "" -> String.prefix p "" = false.
Proof. destruct p; [congruence | reflexivity]. Qed.

Lemma prefix_append p r : String.prefix p (p ++ r) = true.
Proof.
  induction p as [|c p IH]; simpl.
  - now destruct r.
  - destruct (ascii_dec c c); [assumption | congruence].
Qed.

Lemma prefix_true p s :
  String.prefix p s = true -> s = p ++ drop_units (String.length p) s.
Proof.
  revert s; induction p as [|c p IH]; intros s H; simpl.
  - reflexivity.
  - destruct s as [|d s]; simpl in H; [discriminate |].
    destruct (ascii_dec c d) as [->|]; [|discriminate].
    simpl. f_equal. now apply IH.
Qed.

Lemma drop_units_append p r : drop_units (String.length p) (p ++ r) = r.
Proof. induction p as [|c p IH]; simpl; [now destruct r | assumption]. Qed.

(** Whether [sep] is a prefix is decided by the first [length sep] units. *)
Lemma prefix_append_long sep s r :
  String.length sep <= String.length s ->
  String.prefix sep (s ++ r) = String.prefix sep s.
Proof.
  revert s; induction sep as [|c sep IH]; intros s Hlen; simpl.
  - now destruct (s ++ r), s.
  - destruct s as [|d s]; simpl in *; [lia |].
    destruct (ascii_dec c d); [apply IH; lia | reflexivity].
Qed.

Lemma includes_cons c s sep :
  includes (String c s) sep = String.prefix sep (String c s) || includes s sep.
Proof. reflexivity. Qed.

Lemma includes_false_cons c s sep :
  includes (String c s) sep = false ->
  String.prefix sep (String c s) = false /\ includes s sep = false.
Proof. rewrite includes_cons. apply orb_false_elim. Qed.

Lemma includes_empty_sep s : includes s "" = true.
Proof. destruct s; reflexivity. Qed.

Lemma includes_append_l s r sep : includes s sep = true -> includes (s ++ r) sep = true.
Proof.
  induction s as [|c s IH].
  - destruct sep; [intros _; apply includes_empty_sep | discriminate].
  - rewrite includes_cons. intros [H|H]%orb_true_iff.
    + apply prefix_true in H. rewrite H, append_assoc.
      destruct sep as [|d sep]; [apply includes_empty_sep|].
      change (String d sep ++ ?x) with (String d (sep ++ x)).
      rewrite includes_cons.
      change (String d (sep ++ ?x)) with (String d sep ++ x).
      now rewrite prefix_append.
    + change (String c s ++ r) with (String c (s ++ r)).
      rewrite includes_cons, (IH H). apply orb_true_r.
Qed.

Lemma includes_append_false_l s r sep : includes (s ++ r) sep = false -> includes s sep = false.
Proof.
  intros H. destruct (includes s sep) eqn:E; [|reflexivity].
  now rewrite (includes_append_l s r sep E) in H.
Qed.

Lemma length_butlast sep : sep <> "" -> String.length sep = S (String.length (butlast sep)).
Proof.
  induction sep as [|c sep IH]; [congruence|]. intros _.
  destruct sep as [|d sep]; [reflexivity|].
  change (butlast (String c (String d sep))) with (String c (butlast (String d sep))).
  simpl String.length at 1 2. f_equal. apply IH. discriminate.
Qed.

Lemma butlast_last sep : sep <> "" -> exists c, sep = butlast sep ++ String c "".
Proof.
  induction sep as [|c sep IH]; [congruence|]. intros _.
  destruct sep as [|d sep]; [now exists c|].
  destruct IH as [e He]; [discriminate|]. exists e.
  change (String c (String d sep) = String c (butlast (String d sep) ++ String e "")).
  now f_equal.
Qed.

(** ** The pieces of a split *)

Lemma before_first_eq s sep :
  before_first s sep =
  if String.prefix sep s then ""
  else match s with "" => "" | String c s' => String c (before_first s' sep) end.
Proof. destruct s; reflexivity. Qed.

Lemma after_first_eq s sep :
  after_first s sep =
  if String.prefix sep s then Some (drop_units (String.length sep) s)
  else match s with "" => None | String _ s' => after_first s' sep end.
Proof. destruct s; reflexivity. Qed.

Lemma split_from_skip sep p r :
  split_from sep (String.length p) (p ++ r) = split_from sep 0 r.
Proof. induction p as [|c p IH]; [reflexivity | exact IH]. Qed.

Lemma split_from_unfold sep s :
  sep <> "" ->
  split_from sep 0 s =
  before_first s sep ::
    match after_first s sep with
    | Some r => split_from sep 0 r
    | None => []
    end.
Proof.
  intros Hsep. induction s as [|c s IH].
  - rewrite before_first_eq, after_first_eq, (prefix_empty_r sep Hsep). reflexivity.
  - rewrite before_first_eq, after_first_eq.
    change (split_from sep 0 (String c s)) with
      (if String.prefix sep (String c s)
       then "" :: split_from sep (String.length sep - 1) s
       else cons_head c (split_from sep 0 s)).
    destruct (String.prefix sep (String c s)) eqn:E.
    + f_equal. apply prefix_true in E.
      destruct sep as [|d sep]; [congruence|].
      simpl in E. injection E as _ E.
      replace (String.length (String d sep) - 1) with (String.length sep)
        by (simpl; lia).
      change (String.length (String d sep)) with (S (String.length sep)).
      change (drop_units (S (String.length sep)) (String c s))
        with (drop_units (String.length sep) s).
      rewrite E at 1. apply split_from_skip.
    + rewrite IH. reflexivity.
Qed.

Lemma split_nonempty_sep s sep : sep <> "" -> split s sep = split_from sep 0 s.
Proof. destruct sep; [congruence | reflexivity]. Qed.

(** [split] cuts at the first separator and goes on with what follows. *)
Lemma split_unfold s sep :
  sep <> "" ->
  split s sep =
  before_first s sep ::
    match after_first s sep with
    | Some r => split r sep
    | None => []
    end.
Proof.
  intros Hsep. rewrite split_nonempty_sep, split_from_unfold by assumption.
  destruct (after_first s sep); [now rewrite split_nonempty_sep | reflexivity].
Qed.

Lemma split_not_nil s sep : sep <> "" -> split s sep <> [].
Proof. intros Hsep. now rewrite split_unfold. Qed.

(** The second piece of a split is the text between the first two separators. *)
Lemma split_second line : split line ": " !! 1 = detailValue line.
Proof.
  unfold detailValue. rewrite split_unfold by discriminate.
  destruct (after_first line ": ") as [rest|]; [|reflexivity].
  now rewrite split_unfold.
Qed.

Lemma prefix_piece sep c p r :
  sep <> "" ->
  String.prefix sep (String c p ++ sep ++ r) = String.prefix sep (String c p ++ butlast sep).
Proof.
  intros Hsep. destruct (butlast_last sep Hsep) as [e He].
  rewrite He at 2. rewrite append_assoc, <- (append_assoc (String c p)).
  apply prefix_append_long.
  rewrite length_append, (length_butlast sep Hsep). simpl. lia.
Qed.

Lemma before_after_piece sep p r :
  sep <> "" ->
  includes (p ++ butlast sep) sep = false ->
  before_first (p ++ sep ++ r) sep = p /\ after_first (p ++ sep ++ r) sep = Some r.
Proof.
  intros Hsep. induction p as [|c p IH]; intros H.
  - rewrite before_first_eq, after_first_eq. simpl.
    now rewrite prefix_append, drop_units_append.
  - change (String c p ++ butlast sep) with (String c (p ++ butlast sep)) in H.
    apply includes_false_cons in H as [H1 H2].
    rewrite before_first_eq, after_first_eq, prefix_piece by assumption.
    change (String c p ++ butlast sep) with (String c (p ++ butlast sep)).
    rewrite H1.
    change (String c p ++ sep ++ r) with (String c (p ++ sep ++ r)).
    destruct (IH H2) as [-> ->]. now split.
Qed.

Lemma split_piece sep p r :
  sep <> "" ->
  includes (p ++ butlast sep) sep = false ->
  split (p ++ sep ++ r) sep = p :: split r sep.
Proof.
  intros Hsep H. rewrite split_unfold by assumption.
  now destruct (before_after_piece sep p r Hsep H) as [-> ->].
Qed.

Lemma split_single sep p :
  sep <> "" -> includes p sep = false -> split p sep = [p].
Proof.
  intros Hsep H. rewrite split_unfold by assumption.
  induction p as [|c p IH].
  - rewrite before_first_eq, after_first_eq, (prefix_empty_r sep Hsep). reflexivity.
  - apply includes_false_cons in H as [H1 H2].
    rewrite before_first_eq, after_first_eq, H1.
    specialize (IH H2). injection IH as -> E.
    destruct (after_first p sep); [|reflexivity].
    now apply split_not_nil in E.
Qed.

(** Splitting a join gives the pieces back, as long as no separator shows
    up early: neither inside a piece nor across its end. *)
Lemma split_join sep pieces :
  sep <> "" ->
  pieces <> [] ->
  Forall (fun p => includes (p ++ butlast sep) sep = false) pieces ->
  split (join sep pieces) sep = pieces.
Proof.
  intros Hsep Hne Hall. induction Hall as [|p ps Hp Hps IH]; [congruence|].
  destruct ps as [|q ps].
  - simpl. apply split_single; [assumption|].
    now apply includes_append_false_l in Hp.
  - change (join sep (p :: q :: ps)) with (p ++ sep ++ join sep (q :: ps)).
    rewrite split_piece by assumption. f_equal. now apply IH.
Qed.

Example split_leftmost :
  split ("a" ++ nl ++ nl ++ nl ++ "b") (nl ++ nl) = ["a"; nl ++ "b"].
Proof. reflexivity. Qed.

Example split_empty_text : split "" nl = [""].
Proof. reflexivity. Qed.

Example split_trailing_separator : split ("a" ++ nl) nl = ["a"; ""].
Proof. reflexivity. Qed.

Example split_code_units : split "abc" "" = ["a"; "b"; "c"].
Proof. reflexivity. Qed.

Example split_three_pieces : split "Timestamp: a: b" ": " = ["Timestamp"; "a"; "b"].
Proof. reflexivity. Qed.

End StringFacts.

(** * The swap-activity parser *)

Section SwapParser.

Implicit Types (s line swap : string) (b : SwapBlock).

Lemma one_line_cons c s : one_line (String c s) -> c <> LF /\ one_line s.
Proof.
  intros [H1 H2]%includes_false_cons. split; [|exact H2].
  intros ->. unfold nl in H1. now rewrite prefix_cons_same, prefix_empty_l in H1.
Qed.

Lemma key_value_line_cons line :
  key_value_line line -> exists c rest, line = String c rest /\ c <> LF.
Proof.
  intros [H1 H2]. destruct line as [|c rest]; [discriminate|].
  exists c, rest. split; [reflexivity|]. now apply one_line_cons in H1.
Qed.

Lemma prefix_blank_other c s : c <> LF -> String.prefix (nl ++ nl) (String c s) = false.
Proof. intros Hc. now apply prefix_cons_other. Qed.

Lemma blank_free_line s : one_line s -> includes (s ++ nl) (nl ++ nl) = false.
Proof.
  induction s as [|c s IH]; intros H; [reflexivity|].
  apply one_line_cons in H as [Hc Hs].
  change (String c s ++ nl) with (String c (s ++ nl)).
  now rewrite includes_cons, prefix_blank_other, IH.
Qed.

Lemma blank_free_step s c r :
  one_line s -> c <> LF ->
  includes (s ++ nl ++ String c r) (nl ++ nl) = includes (String c r) (nl ++ nl).
Proof.
  intros Hs Hc. induction s as [|d s IH].
  - change ("" ++ nl ++ String c r) with (String LF (String c r)).
    rewrite includes_cons. replace (String.prefix (nl ++ nl) (String LF (String c r))) with false.
    + reflexivity.
    + change (nl ++ nl) with (String LF nl). unfold nl.
      now rewrite prefix_cons_same, prefix_cons_other.
  - apply one_line_cons in Hs as [Hd Hs].
    change (String d s ++ nl ++ String c r) with (String d (s ++ nl ++ String c r)).
    now rewrite includes_cons, prefix_blank_other, IH.
Qed.

(** No blank line inside a block, nor across its end. *)
Lemma block_blank_free h ls :
  one_line h -> Forall key_value_line ls ->
  includes (join nl (h :: ls) ++ nl) (nl ++ nl) = false.
Proof.
  intros Hh Hls. revert h Hh. induction Hls as [|l ls Hl Hls IH]; intros h Hh.
  - now apply blank_free_line.
  - change (join nl (h :: l :: ls)) with (h ++ nl ++ join nl (l :: ls)).
    rewrite !append_assoc.
    destruct (key_value_line_cons l Hl) as (c & rest & -> & Hc).
    assert (exists z, join nl (String c rest :: ls) ++ nl = String c z) as [z Hz].
    { destruct ls; simpl; eauto. }
    rewrite Hz, blank_free_step, <- Hz by assumption.
    apply IH. now destruct Hl.
Qed.

Lemma block_lines h ls :
  Forall one_line (h :: ls) -> split (join nl (h :: ls)) nl = h :: ls.
Proof.
  intros H. apply split_join; [discriminate | discriminate |].
  eapply Forall_impl; [exact H|]. intros p Hp. simpl. now rewrite append_empty_r.
Qed.

Lemma well_formed_lines b :
  well_formed_block b -> Forall one_line (header b :: details b).
Proof.
  intros (Hh & _ & Hd). constructor; [assumption|].
  eapply Forall_impl; [exact Hd|]. now intros l [H _].
Qed.

Lemma detail_eq (d : list string) (i : nat) :
  detail d i =
  match d !! i with
  | Some line => Normal (detailValue line)
  | None => Throw TypeError
  end.
Proof. unfold detail. destruct (d !! i); [now rewrite split_second | reflexivity]. Qed.

Lemma swapRow_recordOfDetails swap h d :
  split swap nl = h :: d -> 5 <= length d ->
  swapRow swap = Normal (recordOfDetails d).
Proof.
  intros E Hlen. unfold swapRow. rewrite E, !detail_eq.
  destruct d as [|l1 [|l2 [|l3 [|l4 [|l5 d]]]]]; simpl in Hlen; try lia.
  reflexivity.
Qed.

Lemma swapRow_short swap :
  length (split swap nl) < 6 -> swapRow swap = Throw TypeError.
Proof.
  intros Hlen. unfold swapRow. rewrite !detail_eq.
  destruct (split swap nl) as [|h [|l1 [|l2 [|l3 [|l4 [|l5 d]]]]]];
    simpl in Hlen; try lia; reflexivity.
Qed.

Lemma swapRow_throws swap e : swapRow swap = Throw e -> length (split swap nl) < 6.
Proof.
  intros H.
  destruct (le_lt_dec 6 (length (split swap nl))) as [Hlen|]; [|assumption].
  destruct (split swap nl) as [|h d] eqn:E; [simpl in Hlen; lia|].
  rewrite (swapRow_recordOfDetails swap h d E) in H; [discriminate|].
  simpl in Hlen. lia.
Qed.

Lemma detailValue_defined line : key_value_line line -> is_Some (detailValue line).
Proof.
  intros [_ H]. unfold detailValue.
  enough (is_Some (after_first line ": ")) as [r ->] by eauto.
  induction line as [|c line IH]; [discriminate|].
  rewrite after_first_eq. rewrite includes_cons in H.
  destruct (String.prefix ": " (String c line)); [eauto | now apply IH].
Qed.

Lemma recordOf_complete b : well_formed_block b -> complete (recordOf b).
Proof.
  intros (_ & Hlen & Hd). unfold recordOf, recordOfDetails, complete.
  destruct (details b) as [|l1 [|l2 [|l3 [|l4 [|l5 d]]]]]; simpl in Hlen; try lia.
  repeat match goal with H : Forall _ (_ :: _) |- _ => apply Forall_cons in H as [? H] end.
  simpl. repeat split; now apply detailValue_defined.
Qed.

Lemma mapM_Normal {A B C : Type} (f : A -> Completion B) (h : C -> A) (g : C -> B)
    (l : list C) :
  Forall (fun x => f (h x) = Normal (g x)) l -> mapM f (map h l) = Normal (map g l).
Proof. induction 1 as [|x l Hx _ IH]; simpl; [reflexivity | now rewrite Hx, IH]. Qed.

Lemma lookup_map {A B : Type} (g : A -> B) (l : list A) (i : nat) :
  map g l !! i = g <$> l !! i.
Proof. revert i; induction l as [|x l IH]; intros [|i]; simpl; auto. Qed.

Lemma mapM_Throw {A B : Type} (f : A -> Completion B) (l : list A) (e : Exception) :
  (forall x e', f x = Throw e' -> e' = e) ->
  Exists (fun x => f x = Throw e) l -> mapM f l = Throw e.
Proof.
  intros Honly. induction 1 as [x l Hx|x l _ IH]; simpl.
  - now rewrite Hx.
  - destruct (f x) as [y|e'] eqn:E; simpl; [now rewrite IH|].
    f_equal. eauto.
Qed.

Lemma mapM_length {A B : Type} (f : A -> Completion B) (l : list A) (ys : list B) :
  mapM f l = Normal ys -> length ys = length l.
Proof.
  revert ys; induction l as [|x l IH]; intros ys; simpl.
  - now intros [= <-].
  - destruct (f x); simpl; [|discriminate].
    destruct (mapM f l); simpl; [|discriminate].
    intros [= <-]. simpl. f_equal. now apply IH.
Qed.

Lemma swapRow_only_TypeError swap e : swapRow swap = Throw e -> e = TypeError.
Proof.
  intros H. pose proof (swapRow_short swap (swapRow_throws swap e H)). congruence.
Qed.

Lemma swapsTab_other s :
  s <> sentinel ->
  swapsTab s = do rows <- mapM swapRow (split s (nl ++ nl)); Normal (SwapTable rows).
Proof.
  intros H. unfold swapsTab. now apply String.eqb_neq in H as ->.
Qed.

Lemma swapText_blocks (blocks : list SwapBlock) :
  blocks <> [] -> Forall well_formed_block blocks ->
  split (swapText blocks) (nl ++ nl) = map blockText blocks.
Proof.
  intros Hne Hwf. apply split_join; [discriminate | now destruct blocks |].
  apply Forall_map. eapply Forall_impl; [exact Hwf|].
  intros b (Hh & _ & Hd). now apply block_blank_free.
Qed.

Lemma swapText_not_sentinel (blocks : list SwapBlock) :
  blocks <> [] -> Forall well_formed_block blocks -> swapText blocks <> sentinel.
Proof.
  intros Hne Hwf E. pose proof (swapText_blocks blocks Hne Hwf) as Hs.
  rewrite E in Hs. change (split sentinel (nl ++ nl)) with [sentinel] in Hs.
  destruct blocks as [|b [|b' blocks]]; try discriminate.
  injection Hs as Hs. apply Forall_inv in Hwf.
  pose proof (block_lines _ _ (well_formed_lines b Hwf)) as Hl.
  fold (blockText b) in Hl. rewrite <- Hs in Hl.
  change (split sentinel nl) with [sentinel] in Hl.
  destruct Hwf as (_ & Hlen & _). destruct (details b); [simpl in Hlen; lia | discriminate].
Qed.

Lemma before_first_absent s sep : includes s sep = false -> before_first s sep = s.
Proof.
  induction s as [|c s IH]; intros H.
  - rewrite before_first_eq. now destruct (String.prefix sep "").
  - apply includes_false_cons in H as [H1 H2].
    now rewrite before_first_eq, H1, IH.
Qed.

Lemma colon_at_end key : includes key ": " = false -> includes (key ++ ":") ": " = false.
Proof.
  induction key as [|c key IH]; intros H; [reflexivity|].
  apply includes_false_cons in H as [H1 H2].
  change (String c key ++ ":") with (String c (key ++ ":")).
  rewrite includes_cons, (IH H2), orb_false_r.
  destruct (ascii_dec ":" c) as [<-|Hc]; [|now apply prefix_cons_other].
  rewrite prefix_cons_same in *.
  destruct key as [|d key]; [reflexivity|].
  change (String d key ++ ":") with (String d (key ++ ":")).
  destruct (ascii_dec " " d) as [<-|Hd]; [|now apply prefix_cons_other].
  now rewrite prefix_cons_same, prefix_empty_l in H1.
Qed.

End SwapParser.

(** C1: for every well-formed swap-activity text of N >= 1 blocks separated
    by one blank line, each block a header line followed by at least five
    [key: value] lines, the swaps tab takes the table path and shows exactly
    N records, the i-th record being the one of the i-th block, with all five
    fields present: nothing is reordered, dropped or merged. *)
Theorem swaps_one_record_per_block (blocks : list SwapBlock) :
  blocks <> [] ->
  Forall well_formed_block blocks ->
  swapText blocks <> sentinel /\
  exists rows,
    swapsTab (swapText blocks) = Normal (SwapTable rows)
    /\ length rows = length blocks
    /\ (forall i b, blocks !! i = Some b -> rows !! i = Some (recordOf b))
    /\ Forall complete rows.
Proof.
  intros Hne Hwf. split; [now apply swapText_not_sentinel|].
  exists (map recordOf blocks). repeat split.
  - rewrite swapsTab_other by now apply swapText_not_sentinel.
    rewrite swapText_blocks by assumption.
    rewrite (mapM_Normal swapRow blockText recordOf); [reflexivity|].
    eapply Forall_impl; [exact Hwf|]. intros b Hb.
    apply (swapRow_recordOfDetails _ (header b)).
    + apply block_lines. now apply well_formed_lines.
    + now destruct Hb as (_ & ? & _).
  - apply length_map.
  - intros i b Hb. now rewrite lookup_map, Hb.
  - apply Forall_map. eapply Forall_impl; [exact Hwf|]. apply recordOf_complete.
Qed.

Lemma swaps_one_record_per_block_witness :
  swapText [sampleBlock; laterBlock] <> sentinel /\
  exists rows,
    swapsTab (swapText [sampleBlock; laterBlock]) = Normal (SwapTable rows)
    /\ length rows = 2
    /\ (forall i b, [sampleBlock; laterBlock] !! i = Some b -> rows !! i = Some (recordOf b))
    /\ Forall complete rows.
Proof.
  apply (swaps_one_record_per_block [sampleBlock; laterBlock]).
  - discriminate.
  - repeat constructor.
Defined.

(** C2 (amended): in a block with at least five detail lines, lines 1 to 5
    are read positionally as timestamp, from-token, to-token, amount and
    USD-equivalent.  The value read off a line is the text after its first
    [": "] up to the next [": "]: all of the remainder when the remainder
    has no [": "] of its own, and [undefined] when the line has none. *)
Theorem swap_fields_positional (h l1 l2 l3 l4 l5 : string) (more : list string) :
  Forall one_line (h :: l1 :: l2 :: l3 :: l4 :: l5 :: more) ->
  swapRow (join nl (h :: l1 :: l2 :: l3 :: l4 :: l5 :: more)) =
    Normal {| timestamp := detailValue l1;
              fromToken := detailValue l2;
              toToken := detailValue l3;
              amount := detailValue l4;
              usdEquivalent := detailValue l5 |}
  /\ (forall line, after_first line ": " = None -> detailValue line = None)
  /\ (forall line rest,
        after_first line ": " = Some rest ->
        detailValue line = Some (before_first rest ": "))
  /\ (forall line rest,
        after_first line ": " = Some rest ->
        includes rest ": " = false ->
        detailValue line = Some rest)
  /\ (forall key value,
        includes key ": " = false ->
        includes value ": " = false ->
        detailValue (key ++ ": " ++ value) = Some value).
Proof.
  intros Hlines. repeat split.
  - apply (swapRow_recordOfDetails _ h (l1 :: l2 :: l3 :: l4 :: l5 :: more)).
    + now apply block_lines.
    + simpl. lia.
  - intros line H. unfold detailValue. now rewrite H.
  - intros line rest H. unfold detailValue. now rewrite H.
  - intros line rest H Hrest. unfold detailValue. now rewrite H, before_first_absent.
  - intros key value Hk Hv. unfold detailValue.
    destruct (before_after_piece ": " key value) as [_ ->]; [discriminate | |].
    + now apply colon_at_end.
    + now rewrite before_first_absent.
Qed.

Lemma swap_fields_positional_witness :
  swapRow (blockText sampleBlock) =
    Normal {| timestamp := Some "2024-01-01";
              fromToken := Some "SOL";
              toToken := Some "USDC";
              amount := Some "10";
              usdEquivalent := Some "$150.00" |}.
Proof.
  refine (proj1 (swap_fields_positional "Swap" "Timestamp: 2024-01-01" "From: SOL"
                   "To: USDC" "Amount: 10" "USD Equivalent: $150.00" [] _)).
  repeat constructor.
Defined.

(** C2 as stated fails: a value that contains [": "] is cut at it. *)
Lemma swap_value_cut_at_second_separator :
  exists r,
    swapRow (blockText colonBlock) = Normal r
    /\ after_first "Timestamp: 2024-01-01 10: 30" ": " = Some "2024-01-01 10: 30"
    /\ timestamp r = Some "2024-01-01 10"
    /\ timestamp r <> Some "2024-01-01 10: 30".
Proof. eexists. repeat split. discriminate. Qed.

(** C3: the swaps tab shows the sentinel paragraph, and no record, exactly
    when the whole input is the sentinel; every other input goes through the
    split on blank lines, which never yields an empty table. *)
Theorem sentinel_iff_no_records :
  swapsTab sentinel = Normal (SentinelMessage sentinel)
  /\ (forall s,
        s <> sentinel ->
        swapsTab s =
          do rows <- mapM swapRow (split s (nl ++ nl)); Normal (SwapTable rows))
  /\ (forall s v, swapsTab s = Normal v -> (swapRecords v = [] <-> s = sentinel))
  /\ (forall s v,
        swapsTab s = Normal v -> (v = SentinelMessage sentinel <-> s = sentinel)).
Proof.
  assert (forall s v, s <> sentinel -> swapsTab s = Normal v ->
                      exists r rows, v = SwapTable (r :: rows)) as Htable.
  { intros s v Hs H. rewrite swapsTab_other in H by assumption.
    destruct (mapM swapRow (split s (nl ++ nl))) as [rows|] eqn:E; [|discriminate].
    injection H as <-. apply mapM_length in E.
    destruct rows as [|r rows]; [|eauto].
    destruct (split s (nl ++ nl)) eqn:E'; [|discriminate].
    now apply split_not_nil in E'. }
  repeat split.
  - apply swapsTab_other.
  - intros Hv. destruct (String.eqb_spec s sentinel) as [|Hs]; [assumption|].
    destruct (Htable s v Hs H) as (r & rows & ->). discriminate.
  - intros ->. injection H as <-. reflexivity.
  - intros Hv. destruct (String.eqb_spec s sentinel) as [|Hs]; [assumption|].
    destruct (Htable s v Hs H) as (r & rows & ->). discriminate.
  - intros ->. now injection H as <-.
Qed.

Example spec_scenario :
  swapsTab (blockText sampleBlock) =
    Normal (SwapTable [ {| timestamp := Some "2024-01-01";
                           fromToken := Some "SOL";
                           toToken := Some "USDC";
                           amount := Some "10";
                           usdEquivalent := Some "$150.00" |} ]).
Proof. reflexivity. Qed.

Example empty_text_is_not_the_sentinel : swapsTab "" = Throw TypeError.
Proof. reflexivity. Qed.

(** C7: a block with fewer than six lines makes the positional read hit
    [undefined]; the callback throws, and so does the render of the swaps tab:
    the block is not skipped and no partial record is shown. *)
Theorem short_block_throws (s swap : string) :
  s <> sentinel ->
  In swap (split s (nl ++ nl)) ->
  length (split swap nl) < 6 ->
  swapRow swap = Throw TypeError /\ swapsTab s = Throw TypeError.
Proof.
  intros Hs Hin Hlen. split; [now apply swapRow_short|].
  rewrite swapsTab_other by assumption.
  rewrite (mapM_Throw swapRow _ TypeError); [reflexivity | |].
  - apply swapRow_only_TypeError.
  - apply List.Exists_exists. exists swap. split; [assumption | now apply swapRow_short].
Qed.

Lemma short_block_throws_witness :
  swapRow shortSwap = Throw TypeError
  /\ swapsTab (blockText sampleBlock ++ nl ++ nl ++ shortSwap) = Throw TypeError.
Proof.
  apply (short_block_throws (blockText sampleBlock ++ nl ++ nl ++ shortSwap) shortSwap).
  - discriminate.
  - right; left; reflexivity.
  - vm_compute. lia.
Defined.

(** * The transaction rows *)

(** C5 (amended): for a transaction whose [balanceChange] is empty the row
    shows neither a symbol nor an amount (both are [undefined]; there is no
    fallback text), the image falls back to the placeholder, and nothing in
    the row's reads of [balanceChange] throws: the row is produced whenever
    the time of the transaction formats. *)
Theorem empty_balanceChange_row
    (toFixed : float -> nat -> string)
    (formatDistanceToNow : string -> Completion string)
    (transaction : Transaction.t) :
  Transaction.balanceChange transaction = [] ->
  transactionRow toFixed formatDistanceToNow transaction =
    do time <- formatDistanceToNow (Transaction.blockTime transaction);
    Normal {| txAction := Transaction.mainAction transaction;
              txTime := time;
              txImgSrc := "/placeholder.svg";
              txImgAlt := None;
              txSymbol := None;
              txAmount := None |}.
Proof. intros H. unfold transactionRow. now rewrite H. Qed.

Lemma empty_balanceChange_row_witness :
  transactionRow sampleToFixed sampleDistance emptyTransaction =
    Normal {| txAction := "transfer";
              txTime := "1 day ago";
              txImgSrc := "/placeholder.svg";
              txImgAlt := None;
              txSymbol := None;
              txAmount := None |}.
Proof.
  exact (empty_balanceChange_row sampleToFixed sampleDistance emptyTransaction eq_refl).
Defined.

(** C5 as stated fails: the amount of such a row is absent, not ["N/A"]. *)
Lemma empty_balanceChange_amount_absent :
  Transaction.balanceChange emptyTransaction = [] /\
  exists row,
    transactionRow sampleToFixed sampleDistance emptyTransaction = Normal row
    /\ txSymbol row = None
    /\ txAmount row = None
    /\ txAmount row <> Some "N/A".
Proof. split; [reflexivity|]. eexists. repeat split. discriminate. Qed.

(** * The no-data gate *)

Section Gate.

Variable toFixed : float -> nat -> string.
Variable toString : float -> string.
Variable formatDistanceToNow : string -> Completion string.

Lemma zero_not_positive (x : float) :
  PrimFloat.eqb x 0 = true -> PrimFloat.ltb 0 x = false.
Proof.
  rewrite FloatAxioms.eqb_spec, FloatAxioms.ltb_spec.
  change (Prim2SF 0) with (S754_zero false).
  destruct (Prim2SF x) as [[]|[]| |[] m e]; cbv [SFeqb SFltb SFcompare]; congruence.
Qed.

Lemma negative_not_positive (x : float) :
  PrimFloat.ltb x 0 = true -> PrimFloat.ltb 0 x = false.
Proof.
  rewrite !FloatAxioms.ltb_spec.
  change (Prim2SF 0) with (S754_zero false).
  destruct (Prim2SF x) as [[]|[]| |[] m e]; cbv [SFeqb SFltb SFcompare]; congruence.
Qed.

Lemma empty_iff_length {A : Type} (l : list A) : Nat.ltb 0 (length l) = false <-> l = [].
Proof. destruct l; unfold Nat.ltb; simpl; split; congruence. Qed.

Lemma hasData_false (p : WalletAnalysisProps) :
  hasData p = false <->
  PrimFloat.ltb 0 (totalValue p) = false
  /\ PrimFloat.ltb 0 (tokenCount p) = false
  /\ topTokens p = []
  /\ recentTransactions p = [].
Proof.
  unfold hasData. rewrite !orb_false_iff, !empty_iff_length. tauto.
Qed.

Lemma render_no_data (p : WalletAnalysisProps) (tab : Tab) :
  hasData p = false ->
  WalletAnalysis toFixed toString formatDistanceToNow p tab = Normal NoPortfolioData.
Proof. intros H. unfold WalletAnalysis. now rewrite H. Qed.

Lemma render_tabbed (p : WalletAnalysisProps) (tab : Tab) (v : View) :
  hasData p = true ->
  WalletAnalysis toFixed toString formatDistanceToNow p tab = Normal v ->
  exists content, v = Tabbed tab content.
Proof.
  intros H. unfold WalletAnalysis. rewrite H. simpl. destruct tab.
  - intros [= <-]. eauto.
  - intros [= <-]. eauto.
  - destruct (transactionsTab _ _ p); simpl; [|discriminate]. intros [= <-]. eauto.
  - destruct (swapsTab _); simpl; [|discriminate]. intros [= <-]. eauto.
Qed.

End Gate.

(** C6 (amended): the "no portfolio data" panel replaces the tabbed view
    exactly when neither numeric aggregate is strictly greater than zero and
    both lists are empty; this is the case when all four are zero or empty.
    Conversely, as soon as one numeric aggregate is strictly positive or one
    list is non-empty, whatever is rendered is the tabbed view. *)
Theorem no_data_gate
    (toFixed : float -> nat -> string) (toString : float -> string)
    (formatDistanceToNow : string -> Completion string)
    (p : WalletAnalysisProps) (tab : Tab) :
  (WalletAnalysis toFixed toString formatDistanceToNow p tab = Normal NoPortfolioData <->
     PrimFloat.ltb 0 (totalValue p) = false
     /\ PrimFloat.ltb 0 (tokenCount p) = false
     /\ topTokens p = []
     /\ recentTransactions p = [])
  /\ (PrimFloat.eqb (totalValue p) 0 = true ->
      PrimFloat.eqb (tokenCount p) 0 = true ->
      topTokens p = [] ->
      recentTransactions p = [] ->
      WalletAnalysis toFixed toString formatDistanceToNow p tab = Normal NoPortfolioData)
  /\ (PrimFloat.ltb 0 (totalValue p) = true
      \/ PrimFloat.ltb 0 (tokenCount p) = true
      \/ topTokens p <> []
      \/ recentTransactions p <> [] ->
      forall v,
        WalletAnalysis toFixed toString formatDistanceToNow p tab = Normal v ->
        exists content, v = Tabbed tab content).
Proof.
  split; [split | split].
  - intros H. destruct (hasData p) eqn:E.
    + destruct (render_tabbed _ _ _ p tab _ E H) as [content Hc]. discriminate.
    + now apply hasData_false in E.
  - intros H. apply render_no_data. now apply hasData_false.
  - intros Hv Hc Ht Hr. apply render_no_data, hasData_false.
    auto using zero_not_positive.
  - intros H v Hv. apply (render_tabbed toFixed toString formatDistanceToNow p tab v); [|assumption].
    destruct (hasData p) eqn:E; [reflexivity|].
    apply hasData_false in E as (E1 & E2 & E3 & E4).
    destruct H as [H|[H|[H|H]]]; congruence.
Qed.

(** C6 as stated fails: a total value of -1 is not zero, yet the panel is
    selected. *)
Lemma nonzero_total_value_without_tabs :
  PrimFloat.eqb (totalValue negativeSnapshot) 0 = false
  /\ WalletAnalysis sampleToFixed sampleToString sampleDistance negativeSnapshot overview
     = Normal NoPortfolioData.
Proof. split; reflexivity. Qed.

(** C10: with a strictly negative total value, a token count of zero and
    both lists empty, the "no portfolio data" panel is selected; under a
    negative total value the gate is decided by the other three inputs. *)
Theorem negative_total_value_is_no_data
    (toFixed : float -> nat -> string) (toString : float -> string)
    (formatDistanceToNow : string -> Completion string)
    (p : WalletAnalysisProps) (tab : Tab) :
  PrimFloat.ltb (totalValue p) 0 = true ->
  (PrimFloat.eqb (tokenCount p) 0 = true ->
   topTokens p = [] ->
   recentTransactions p = [] ->
   WalletAnalysis toFixed toString formatDistanceToNow p tab = Normal NoPortfolioData)
  /\ hasData p =
       PrimFloat.ltb 0 (tokenCount p)
       || Nat.ltb 0 (length (topTokens p))
       || Nat.ltb 0 (length (recentTransactions p)).
Proof.
  intros Hneg. apply negative_not_positive in Hneg. split.
  - intros Hc Ht Hr. apply render_no_data, hasData_false.
    auto using zero_not_positive.
  - unfold hasData. now rewrite Hneg.
Qed.

Lemma negative_total_value_is_no_data_witness :
  (PrimFloat.eqb (tokenCount negativeSnapshot) 0 = true ->
   topTokens negativeSnapshot = [] ->
   recentTransactions negativeSnapshot = [] ->
   WalletAnalysis sampleToFixed sampleToString sampleDistance negativeSnapshot swaps
   = Normal NoPortfolioData)
  /\ hasData negativeSnapshot =
       PrimFloat.ltb 0 (tokenCount negativeSnapshot)
       || Nat.ltb 0 (length (topTokens negativeSnapshot))
       || Nat.ltb 0 (length (recentTransactions negativeSnapshot)).
Proof.
  exact (negative_total_value_is_no_data sampleToFixed sampleToString sampleDistance
           negativeSnapshot swaps eq_refl).
Defined.

(** * Sign-driven colours and icons of the overview *)

Section Signs.

Import Spec.

Lemma startsWith_minus (s : string) : startsWith s "-" = true <-> classifySign s = negative.
Proof.
  unfold startsWith, classifySign. destruct s as [|c s].
  - split; intros H; discriminate H.
  - destruct (ascii_dec "-" c) as [<-|Hc].
    + rewrite prefix_cons_same, prefix_empty_l. split; reflexivity.
    + rewrite prefix_cons_other by assumption.
      apply Ascii.eqb_neq in Hc. rewrite Ascii.eqb_sym, Hc.
      split; intros H; discriminate H.
Qed.

Lemma classifySign_cases (s : string) :
  classifySign s = (if startsWith s "-" then negative else positive).
Proof.
  destruct (startsWith s "-") eqn:E.
  - now apply startsWith_minus.
  - destruct s as [|c s]; [reflexivity|]. simpl.
    destruct (Ascii.eqb c "-") eqn:Ec; [|reflexivity].
    apply Ascii.eqb_eq in Ec as ->. unfold startsWith in E.
    now rewrite prefix_cons_same, prefix_empty_l in E.
Qed.

Lemma color_by_sign (s : string) :
  (if startsWith s "-" then "red" else "green") = colorOf (classifySign s).
Proof. rewrite classifySign_cases. now destruct (startsWith s "-"). Qed.

Lemma arrow_by_sign (s : string) :
  (if startsWith s "-" then ArrowDownRight else ArrowUpRight) = arrowOf (classifySign s).
Proof. rewrite classifySign_cases. now destruct (startsWith s "-"). Qed.

Lemma textClass_by_sign (s : string) :
  (if startsWith s "-" then "text-red-400" else "text-green-400")
  = textClassOf (classifySign s).
Proof. rewrite classifySign_cases. now destruct (startsWith s "-"). Qed.

End Signs.

(** C4: the sign test the overview applies is the total function
    [classifySign]: negative exactly when the first character is "-",
    positive otherwise; "0.00" is positive and "-5.2%" is negative.  The
    same test colours the overall PNL card, the PNL percentage card and
    every entry of the per-token breakdown. *)
Theorem sign_classification
    (toFixed : float -> nat -> string) (toString : float -> string)
    (p : WalletAnalysisProps) :
  (forall s, startsWith s "-" = true <-> Spec.classifySign s = Spec.negative)
  /\ (forall s, Spec.classifySign s = Spec.negative <-> exists rest, s = String "-" rest)
  /\ (forall s, Spec.classifySign s <> Spec.negative <-> Spec.classifySign s = Spec.positive)
  /\ Spec.classifySign "0.00" = Spec.positive
  /\ Spec.classifySign "-5.2%" = Spec.negative
  /\ overallPnlCard (overviewTab toFixed toString p) =
       Some {| title := "Overall PNL";
               value := overallPNL p;
               icon := Spec.arrowOf (Spec.classifySign (overallPNL p));
               color := Spec.colorOf (Spec.classifySign (overallPNL p)) |}
  /\ pnlPercentCard (overviewTab toFixed toString p) =
       Some {| title := "PNL %";
               value := pnlPercentage p;
               icon := Activity;
               color := Spec.colorOf (Spec.classifySign (pnlPercentage p)) |}
  /\ breakdown (overviewTab toFixed toString p) =
       match pnlByToken p with
       | [] => None
       | items =>
           Some (map (fun item =>
                        {| entryToken := PnlItem.token item;
                           entryClass :=
                             "text-lg font-bold " ++
                             Spec.textClassOf (Spec.classifySign (PnlItem.amount item));
                           entryAmount := PnlItem.amount item |})
                     items)
       end.
Proof.
  split; [exact startsWith_minus|].
  split.
  { intros s. destruct s as [|c s]; simpl.
    - split; [discriminate | intros [rest H]; discriminate].
    - destruct (Ascii.eqb c "-") eqn:E.
      + apply Ascii.eqb_eq in E as ->. split; eauto.
      + apply Ascii.eqb_neq in E. split; [discriminate|].
        intros [rest [= H _]]. contradiction. }
  split.
  { intros s. rewrite classifySign_cases. destruct (startsWith s "-"); split; congruence. }
  split; [reflexivity|]. split; [reflexivity|].
  split.
  { unfold overallPnlCard, overviewTab. simpl.
    now rewrite arrow_by_sign, color_by_sign. }
  split.
  { unfold pnlPercentCard, overviewTab. simpl. now rewrite color_by_sign. }
  unfold overviewTab. cbn [breakdown].
  destruct (pnlByToken p) as [|item items]; [reflexivity|].
  change (Nat.ltb 0 (length (item :: items))) with true. cbv iota.
  f_equal. apply map_ext. intros x. now rewrite textClass_by_sign.
Qed.

(** C8: two renders that agree on [overallPNL] show the same overall PNL
    card (value, icon and colour), whatever else differs between them, the
    percentage text included; two renders that agree on [pnlPercentage] show
    the same PNL percentage card, whatever [overallPNL] is. *)
Theorem pnl_cards_noninterference
    (toFixed toFixed' : float -> nat -> string) (toString toString' : float -> string)
    (p q : WalletAnalysisProps) :
  (overallPNL p = overallPNL q ->
   overallPnlCard (overviewTab toFixed toString p) =
   overallPnlCard (overviewTab toFixed' toString' q))
  /\ (pnlPercentage p = pnlPercentage q ->
      pnlPercentCard (overviewTab toFixed toString p) =
      pnlPercentCard (overviewTab toFixed' toString' q)).
Proof.
  split; intros H; unfold overallPnlCard, pnlPercentCard, overviewTab; simpl;
    now rewrite H.
Qed.

Example loss_card_whatever_the_percentage :
  overallPnlCard (overviewTab sampleToFixed sampleToString lossSnapshot) =
    Some {| title := "Overall PNL"; value := "-12.34";
            icon := ArrowDownRight; color := "red" |}
  /\ overallPnlCard (overviewTab sampleToFixed sampleToString gainSnapshot) =
       overallPnlCard (overviewTab sampleToFixed sampleToString lossSnapshot)
  /\ (color <$> pnlPercentCard (overviewTab sampleToFixed sampleToString lossSnapshot))
     = Some "green"
  /\ (color <$> pnlPercentCard (overviewTab sampleToFixed sampleToString gainSnapshot))
     = Some "red".
Proof. repeat split. Qed.

(** * The logo fallback *)






Example same_symbol_other_instance :
  swapLogos (SwapTable [recordOf sampleBlock; recordOf sampleBlock])
  = [Some "SOL"; Some "USDC"; Some "SOL"; Some "USDC"]
  /\ renderLogos [Some "SOL"; Some "USDC"; Some "SOL"; Some "USDC"]
       (onError 0 (mountLogos [Some "SOL"; Some "USDC"; Some "SOL"; Some "USDC"]))
     = [ Normal (Badge "SO");
         Normal (Img "https://raw.githubusercontent.com/solana-labs/token-list/main/assets/mainnet/USDC/logo.png"
                     "USDC logo");
         Normal (Img "https://raw.githubusercontent.com/solana-labs/token-list/main/assets/mainnet/SOL/logo.png"
                     "SOL logo");
         Normal (Img "https://raw.githubusercontent.com/solana-labs/token-list/main/assets/mainnet/USDC/logo.png"
                     "USDC logo") ].
Proof. split; reflexivity. Qed.

Example lower_case_symbol : TokenLogo (Some "sol") true = Normal (Badge "SO").
Proof. reflexivity. Qed.

Example latin1_symbol :
  TokenLogo (Some (String (ascii_of_nat 233) "a")) true
  = Normal (Badge (String (ascii_of_nat 201) "A")).
Proof. reflexivity. Qed.

(** * Further properties of the swap-activity parser *)

Section SplitMore.

Implicit Types (s p r sep : string) (c : ascii).

Lemma split_from_not_nil sep s k : split_from sep k s <> [].
Proof.
  revert k; induction s as [|c s IH]; intros k; [discriminate|].
  destruct k as [|k]; [|apply IH].
  change (split_from sep 0 (String c s)) with
    (if String.prefix sep (String c s)
     then "" :: split_from sep (String.length sep - 1) s
     else cons_head c (split_from sep 0 s)).
  destruct (String.prefix sep (String c s)); [discriminate|].
  now destruct (split_from sep 0 s).
Qed.

Lemma join_cons_head sep c (pieces : list string) :
  pieces <> [] -> join sep (cons_head c pieces) = String c (join sep pieces).
Proof. destruct pieces as [|p [|q ps]]; [congruence | reflexivity | reflexivity]. Qed.

Lemma join_cons sep p (pieces : list string) :
  pieces <> [] -> join sep (p :: pieces) = p ++ sep ++ join sep pieces.
Proof. destruct pieces; [congruence | reflexivity]. Qed.

Lemma join_snoc sep p (pieces : list string) :
  pieces <> [] -> join sep (pieces ++ [p])%list = join sep pieces ++ sep ++ p.
Proof.
  induction pieces as [|q qs IH]; [congruence|]. intros _.
  destruct qs as [|q' qs]; [reflexivity|].
  change ((q :: q' :: qs) ++ [p])%list with (q :: ((q' :: qs) ++ [p])%list).
  rewrite join_cons by discriminate. rewrite IH by discriminate.
  rewrite (join_cons sep q (q' :: qs)) by discriminate.
  now rewrite !append_assoc.
Qed.

Lemma split_from_join sep s k :
  sep <> "" -> join sep (split_from sep k s) = drop_units k s.
Proof.
  intros Hsep. revert k; induction s as [|c s IH]; intros k.
  - now destruct k.
  - destruct k as [|k]; [|apply IH].
    change (split_from sep 0 (String c s)) with
      (if String.prefix sep (String c s)
       then "" :: split_from sep (String.length sep - 1) s
       else cons_head c (split_from sep 0 s)).
    destruct (String.prefix sep (String c s)) eqn:E.
    + rewrite join_cons by apply split_from_not_nil. rewrite IH.
      apply prefix_true in E. destruct sep as [|d sep]; [congruence|].
      simpl in E. injection E as -> E.
      replace (String.length (String d sep) - 1) with (String.length sep)
        by (simpl; lia).
      simpl. now f_equal.
    + rewrite join_cons_head by apply split_from_not_nil. now rewrite IH.
Qed.

Lemma join_code_units s :
  join "" (map (fun c => String c "") (list_ascii_of_string s)) = s.
Proof.
  induction s as [|c s IH]; [reflexivity|].
  destruct s as [|d s]; [reflexivity|].
  change (list_ascii_of_string (String c (String d s)))
    with (c :: list_ascii_of_string (String d s)).
  rewrite map_cons, join_cons by discriminate. now rewrite IH.
Qed.

Lemma before_first_prefix s sep : exists r, s = before_first s sep ++ r.
Proof.
  induction s as [|c s [r IH]]; rewrite before_first_eq.
  - exists "". now destruct (String.prefix sep "").
  - destruct (String.prefix sep (String c s)); [now exists (String c s)|].
    exists r. simpl. now f_equal.
Qed.

Lemma after_first_suffix s sep r : after_first s sep = Some r -> exists p, s = p ++ r.
Proof.
  induction s as [|c s IH]; rewrite after_first_eq.
  - destruct (String.prefix sep "") eqn:E; [|discriminate].
    intros [= <-]. exists sep. now apply prefix_true.
  - destruct (String.prefix sep (String c s)) eqn:E.
    + intros [= <-]. exists sep. now apply prefix_true.
    + intros [p ->]%IH. now exists (String c p).
Qed.

Lemma after_first_None s sep : after_first s sep = None <-> includes s sep = false.
Proof.
  induction s as [|c s IH]; rewrite after_first_eq.
  - change (includes "" sep) with (String.prefix sep "" || false).
    rewrite orb_false_r. destruct (String.prefix sep ""); split; congruence.
  - rewrite includes_cons, orb_false_iff, <- IH.
    destruct (String.prefix sep (String c s)); intuition congruence.
Qed.

Lemma prefix_weaken sep s r : String.prefix sep s = true -> String.prefix sep (s ++ r) = true.
Proof.
  intros H. apply prefix_true in H. rewrite H, append_assoc. apply prefix_append.
Qed.

Lemma includes_empty_text sep : sep <> "" -> includes "" sep = false.
Proof. intros H. destruct sep; [congruence | reflexivity]. Qed.

Lemma before_first_free s sep : sep <> "" -> includes (before_first s sep) sep = false.
Proof.
  intros Hsep. induction s as [|c s IH]; rewrite before_first_eq.
  - destruct (String.prefix sep ""); now apply includes_empty_text.
  - destruct (String.prefix sep (String c s)) eqn:E.
    + now apply includes_empty_text.
    + rewrite includes_cons, IH, orb_false_r.
      destruct (String.prefix sep (String c (before_first s sep))) eqn:E'; [|reflexivity].
      destruct (before_first_prefix s sep) as [r Hr].
      apply (prefix_weaken _ _ r) in E'.
      change (String c (before_first s sep) ++ r)
        with (String c (before_first s sep ++ r)) in E'.
      rewrite <- Hr in E'. congruence.
Qed.

Lemma includes_append_false_r s r sep : includes (s ++ r) sep = false -> includes r sep = false.
Proof.
  induction s as [|c s IH]; [trivial|].
  change (String c s ++ r) with (String c (s ++ r)).
  intros [_ H]%includes_false_cons. now apply IH.
Qed.

(** No piece of a split contains the separator. *)
Lemma split_pieces_free s sep :
  sep <> "" -> Forall (fun p => includes p sep = false) (split s sep).
Proof.
  intros Hsep. rewrite split_nonempty_sep by assumption.
  generalize 0 at 1. induction s as [|c s IH]; intros k.
  - constructor; [|constructor]. now apply includes_empty_text.
  - destruct k as [|k]; [|apply IH].
    change (split_from sep 0 (String c s)) with
      (if String.prefix sep (String c s)
       then "" :: split_from sep (String.length sep - 1) s
       else cons_head c (split_from sep 0 s)).
    destruct (String.prefix sep (String c s)) eqn:E.
    + constructor; [|apply IH]. now apply includes_empty_text.
    + specialize (IH 0). rewrite split_from_unfold in * by assumption.
      apply Forall_cons in IH as [_ IH]. simpl. constructor; [|exact IH].
      pose proof (before_first_free (String c s) sep Hsep) as H.
      rewrite before_first_eq, E in H. exact H.
Qed.

Lemma no_newline_no_blank s : includes s nl = false -> includes s (nl ++ nl) = false.
Proof.
  induction s as [|c s IH]; [reflexivity|]. intros H.
  apply one_line_cons in H as [Hc Hs].
  now rewrite includes_cons, prefix_blank_other, IH.
Qed.

End SplitMore.

(** X1: a split loses no text.  For every text and every separator, joining
    the pieces with the separator gives the text back; in particular the
    blocks of [swapActivity] and the lines of a block determine the text. *)
Theorem split_join_round_trip (s sep : string) : join sep (split s sep) = s.
Proof.
  destruct sep as [|d sep]; [apply join_code_units|].
  rewrite split_nonempty_sep by discriminate.
  now rewrite split_from_join.
Qed.

Section ParserMore.

Lemma swapRow_long (swap : string) :
  6 <= length (split swap nl) -> swapRow swap = Normal (blockRecord swap).
Proof.
  intros Hlen. unfold blockRecord.
  destruct (split swap nl) as [|h d] eqn:E; [simpl in Hlen; lia|].
  apply (swapRow_recordOfDetails swap h d E). simpl in Hlen. simpl. lia.
Qed.

Lemma swapRow_Normal_inv (swap : string) (r : SwapRow) :
  swapRow swap = Normal r -> r = blockRecord swap /\ 6 <= length (split swap nl).
Proof.
  intros H. destruct (le_lt_dec 6 (length (split swap nl))) as [Hlen|Hlen].
  - rewrite (swapRow_long swap Hlen) in H. injection H as <-. now split.
  - rewrite (swapRow_short swap Hlen) in H. discriminate.
Qed.

Lemma mapM_Normal_inv {A B : Type} (f : A -> Completion B) (l : list A) (ys : list B) :
  mapM f l = Normal ys -> Forall2 (fun x y => f x = Normal y) l ys.
Proof.
  revert ys; induction l as [|x l IH]; intros ys; simpl.
  - intros [= <-]. constructor.
  - destruct (f x) as [y|] eqn:E; simpl; [|discriminate].
    destruct (mapM f l) as [ys'|]; simpl; [|discriminate].
    intros [= <-]. constructor; [assumption | now apply IH].
Qed.

Lemma mapM_Normal_all {A B : Type} (f : A -> Completion B) (g : A -> B) (l : list A) :
  Forall (fun x => f x = Normal (g x)) l -> mapM f l = Normal (map g l).
Proof. induction 1 as [|x l Hx _ IH]; simpl; [reflexivity | now rewrite Hx, IH]. Qed.

Lemma mapM_rows (blocks : list string) (rows : list SwapRow) :
  mapM swapRow blocks = Normal rows ->
  rows = map blockRecord blocks
  /\ Forall (fun swap => 6 <= length (split swap nl)) blocks.
Proof.
  intros H%mapM_Normal_inv.
  induction H as [|swap r blocks rows Hr _ [-> IH]]; [now split|].
  apply swapRow_Normal_inv in Hr as [-> Hlen]. split; [reflexivity | now constructor].
Qed.

Lemma swapsTab_table_inv (s : string) (rows : list SwapRow) :
  swapsTab s = Normal (SwapTable rows) ->
  s <> sentinel /\ mapM swapRow (split s (nl ++ nl)) = Normal rows.
Proof.
  unfold swapsTab. destruct (String.eqb_spec s sentinel) as [|Hs]; [discriminate|].
  destruct (mapM swapRow (split s (nl ++ nl))); simpl; [|discriminate].
  intros [= <-]. now split.
Qed.

Lemma cells_lookup (d : list string) (i : nat) :
  i < 5 -> cells (recordOfDetails d) !! i = Some (d !! i ≫= detailValue).
Proof. intros Hi. do 5 (destruct i as [|i]; [reflexivity|]). lia. Qed.

Lemma cells_inv (d : list string) (v : string) :
  In (Some v) (cells (recordOfDetails d)) ->
  exists line, In line d /\ detailValue line = Some v.
Proof.
  intros H. simpl in H.
  assert (forall i, d !! i ≫= detailValue = Some v ->
                    exists line, In line d /\ detailValue line = Some v) as Hi.
  { intros i E. destruct (d !! i) as [line|] eqn:El; [|discriminate].
    exists line. split; [|exact E].
    apply list_elem_of_In, list_elem_of_lookup. eauto. }
  destruct H as [H|[H|[H|[H|[H|[]]]]]]; eauto.
Qed.

End ParserMore.

(** X2: whenever the swaps tab shows a table, for any text at all, its rows
    are the records of the blank-line separated blocks of the text, one per
    block and in the order of the blocks, and every block has at least six
    lines. *)
Theorem swaps_table_rows (s : string) (rows : list SwapRow) :
  swapsTab s = Normal (SwapTable rows) ->
  s <> sentinel
  /\ rows = map blockRecord (split s (nl ++ nl))
  /\ length rows = length (split s (nl ++ nl))
  /\ Forall (fun swap => 6 <= length (split swap nl)) (split s (nl ++ nl)).
Proof.
  intros [Hs H]%swapsTab_table_inv. apply mapM_rows in H as [-> Hall].
  repeat split; try assumption. apply length_map.
Qed.

Lemma swaps_table_rows_witness :
  blockText sampleBlock <> sentinel
  /\ [recordOf sampleBlock] = map blockRecord (split (blockText sampleBlock) (nl ++ nl))
  /\ length [recordOf sampleBlock] = length (split (blockText sampleBlock) (nl ++ nl))
  /\ Forall (fun swap => 6 <= length (split swap nl))
       (split (blockText sampleBlock) (nl ++ nl)).
Proof.
  exact (swaps_table_rows (blockText sampleBlock) [recordOf sampleBlock] eq_refl).
Defined.

(** X3: the swaps tab renders exactly when the text is the sentinel or each
    of its blocks has at least six lines, whatever those lines contain;
    otherwise the render throws, and the exception is always a TypeError. *)
Theorem swaps_renders_iff (s : string) :
  ((exists v, swapsTab s = Normal v) <->
   s = sentinel \/ Forall (fun swap => 6 <= length (split swap nl)) (split s (nl ++ nl)))
  /\ (forall e, swapsTab s = Throw e -> e = TypeError).
Proof.
  destruct (String.eqb_spec s sentinel) as [->|Hs].
  { split; [split; eauto | discriminate]. }
  rewrite swapsTab_other by assumption. split; [split|].
  - intros [v Hv]. right.
    destruct (mapM swapRow (split s (nl ++ nl))) as [rows|] eqn:E; [|discriminate].
    now apply mapM_rows in E.
  - intros [?|Hall]; [contradiction|].
    rewrite (mapM_Normal_all swapRow blockRecord); [simpl; eauto|].
    eapply Forall_impl; [exact Hall|]. apply swapRow_long.
  - intros e. destruct (mapM swapRow (split s (nl ++ nl))) as [rows|e'] eqn:E;
      [discriminate|]. intros [= <-].
    clear Hs. induction (split s (nl ++ nl)) as [|swap blocks IH]; [discriminate|].
    simpl in E. destruct (swapRow swap) as [r|e''] eqn:Er; simpl in E.
    + destruct (mapM swapRow blocks); [discriminate|]. injection E as ->. now apply IH.
    + injection E as <-. now apply swapRow_only_TypeError in Er.
Qed.

(** X4: a text without any line feed that is not the sentinel (the empty
    text, a sentinel with other wording, one line of prose) makes the swaps
    tab throw: it is taken for one block of a single line. *)
Theorem single_line_text_throws (s : string) :
  s <> sentinel -> includes s nl = false -> swapsTab s = Throw TypeError.
Proof.
  intros Hs Hnl. rewrite swapsTab_other by assumption.
  rewrite (split_single (nl ++ nl) s) by (discriminate || now apply no_newline_no_blank).
  simpl. rewrite swapRow_short; [reflexivity|].
  rewrite (split_single nl s) by (discriminate || assumption). simpl. lia.
Qed.

Lemma single_line_text_throws_witness :
  swapsTab "No swap activity data available" = Throw TypeError.
Proof.
  apply (single_line_text_throws "No swap activity data available").
  - discriminate.
  - reflexivity.
Defined.

(** X5: the record of a block depends on its detail lines 1 to 5 only: the
    header line and every line after the sixth are ignored. *)
Theorem header_and_later_lines_ignored
    (h h' l1 l2 l3 l4 l5 : string) (more more' : list string) :
  Forall one_line (h :: l1 :: l2 :: l3 :: l4 :: l5 :: more) ->
  Forall one_line (h' :: more') ->
  swapRow (join nl (h :: l1 :: l2 :: l3 :: l4 :: l5 :: more)) =
  swapRow (join nl (h' :: l1 :: l2 :: l3 :: l4 :: l5 :: more')).
Proof.
  intros H H'.
  assert (Forall one_line (h' :: l1 :: l2 :: l3 :: l4 :: l5 :: more')) as H''.
  { apply Forall_cons in H' as [Hh' Hm'].
    do 6 (apply Forall_cons in H as [? H]). repeat (constructor; [assumption|]).
    exact Hm'. }
  rewrite (swapRow_recordOfDetails _ h (l1 :: l2 :: l3 :: l4 :: l5 :: more));
    [|now apply block_lines | simpl; lia].
  rewrite (swapRow_recordOfDetails _ h' (l1 :: l2 :: l3 :: l4 :: l5 :: more'));
    [|now apply block_lines | simpl; lia].
  reflexivity.
Qed.

Lemma header_and_later_lines_ignored_witness :
  swapRow (blockText sampleBlock) =
  swapRow (join nl ["Swap on Jupiter"; "Timestamp: 2024-01-01"; "From: SOL"; "To: USDC";
                    "Amount: 10"; "USD Equivalent: $150.00"; "Note: routed"; "Fee: 0"]).
Proof.
  apply (header_and_later_lines_ignored "Swap" "Swap on Jupiter" "Timestamp: 2024-01-01"
           "From: SOL" "To: USDC" "Amount: 10" "USD Equivalent: $150.00"
           [] ["Note: routed"; "Fee: 0"]); repeat constructor.
Defined.

(** X6: in a row that renders, cell i is [undefined] exactly when detail
    line i of the block has no [": "]; such a line does not make the row
    throw. *)
Theorem cell_undefined_iff_no_separator
    (swap : string) (r : SwapRow) (i : nat) (line : string) :
  swapRow swap = Normal r ->
  i < 5 ->
  tail (split swap nl) !! i = Some line ->
  (cells r !! i = Some None <-> includes line ": " = false).
Proof.
  intros [-> _]%swapRow_Normal_inv Hi Hline. unfold blockRecord.
  rewrite cells_lookup, Hline by assumption. simpl.
  rewrite <- after_first_None. unfold detailValue.
  destruct (after_first line ": "); split; congruence.
Qed.

Lemma cell_undefined_iff_no_separator_witness :
  cells {| timestamp := Some "2024-01-01"; fromToken := None; toToken := Some "USDC";
           amount := Some "10"; usdEquivalent := Some "$150.00" |} !! 1 = Some None
  <-> includes "From SOL" ": " = false.
Proof.
  exact (cell_undefined_iff_no_separator
           (join nl ["Swap"; "Timestamp: 2024-01-01"; "From SOL"; "To: USDC"; "Amount: 10";
                     "USD Equivalent: $150.00"])
           _ 1 "From SOL" eq_refl (le_n_S _ _ (le_n_S _ _ (le_0_n _))) eq_refl).
Defined.

(** X7: no cell of a swap row ever contains a line feed or a [": "]. *)
Theorem cells_are_clean (swap : string) (r : SwapRow) (v : string) :
  swapRow swap = Normal r ->
  In (Some v) (cells r) ->
  includes v nl = false /\ includes v ": " = false.
Proof.
  intros [-> _]%swapRow_Normal_inv Hv. unfold blockRecord in Hv.
  apply cells_inv in Hv as (line & Hline & Hval).
  assert (includes line nl = false) as Hnl.
  { pose proof (split_pieces_free swap nl) as Hfree.
    rewrite Forall_forall in Hfree. apply Hfree; [discriminate|].
    apply list_elem_of_In. destruct (split swap nl); [destruct Hline | now right]. }
  unfold detailValue in Hval.
  destruct (after_first line ": ") as [rest|] eqn:E; [|discriminate].
  injection Hval as <-. split; [|now apply before_first_free].
  apply after_first_suffix in E as [p ->].
  destruct (before_first_prefix rest ": ") as [q Hq]. rewrite Hq in Hnl.
  apply includes_append_false_r in Hnl. now apply includes_append_false_l in Hnl.
Qed.

Lemma cells_are_clean_witness :
  includes "2024-01-01 10" nl = false /\ includes "2024-01-01 10" ": " = false.
Proof.
  apply (cells_are_clean (blockText colonBlock)
           {| timestamp := Some "2024-01-01 10"; fromToken := Some "SOL";
              toToken := Some "USDC"; amount := Some "10";
              usdEquivalent := Some "$150.00" |}).
  - reflexivity.
  - left; reflexivity.
Defined.

(** X8: a blank line after the last block of an otherwise well-formed text
    makes the swaps tab throw: the text then ends with an empty block. *)
Theorem trailing_blank_line_throws (blocks : list SwapBlock) :
  blocks <> [] ->
  Forall well_formed_block blocks ->
  swapsTab (swapText blocks ++ nl ++ nl) = Throw TypeError.
Proof.
  intros Hne Hwf.
  assert (split (swapText blocks ++ nl ++ nl) (nl ++ nl) = (map blockText blocks ++ [""])%list)
    as Hsplit.
  { replace (swapText blocks ++ nl ++ nl)
      with (join (nl ++ nl) (map blockText blocks ++ [""])%list).
    - apply split_join; [discriminate | now destruct blocks |].
      apply Forall_app. split; [|now repeat constructor].
      apply Forall_map. eapply Forall_impl; [exact Hwf|].
      intros b (Hh & _ & Hd). now apply block_blank_free.
    - rewrite join_snoc by now destruct blocks.
      unfold swapText. now rewrite !append_assoc. }
  assert (swapText blocks ++ nl ++ nl <> sentinel) as Hs.
  { intros E. rewrite E in Hsplit. destruct blocks as [|b blocks]; [congruence|].
    destruct blocks; discriminate. }
  rewrite swapsTab_other, Hsplit by assumption.
  rewrite (mapM_Throw swapRow _ TypeError); [reflexivity | apply swapRow_only_TypeError |].
  apply List.Exists_exists. exists "". split; [|reflexivity].
  apply in_or_app. right. now left.
Qed.

Lemma trailing_blank_line_throws_witness :
  swapsTab (swapText [sampleBlock; laterBlock] ++ nl ++ nl) = Throw TypeError.
Proof.
  apply (trailing_blank_line_throws [sampleBlock; laterBlock]).
  - discriminate.
  - repeat constructor.
Defined.

(** * Further properties of the token logos *)

Section LogosMore.





End LogosMore.



(** * The tokens tab *)

Section TokensMore.

Lemma or_else_not_empty (a b : string) : b <> "" -> or_else a b <> "".
Proof. intros Hb. destruct a; [exact Hb | discriminate]. Qed.

Lemma or_else_same (a b : string) : a <> "" -> or_else a b = a.
Proof. destruct a; [congruence | reflexivity]. Qed.

End TokensMore.

(** X13: a row of the tokens table never shows a blank name, image
    description, image source or symbol: an empty name is shown as "Unknown
    Token" (also as the description of the image), an empty logo URI as
    "/placeholder.svg", an empty symbol as "(N/A)", and a non-empty value is
    shown as it is. *)
Theorem token_row_never_blank (toFixed : float -> nat -> string) (token : Token.t) :
  tokenName (tokenRow toFixed token) <> ""
  /\ tokenImgAlt (tokenRow toFixed token) = tokenName (tokenRow toFixed token)
  /\ tokenImgSrc (tokenRow toFixed token) <> ""
  /\ (exists sym, sym <> "" /\ tokenSymbol (tokenRow toFixed token) = "(" ++ sym ++ ")")
  /\ (Token.name token = "" -> tokenName (tokenRow toFixed token) = "Unknown Token")
  /\ (Token.logoURI token = "" ->
      tokenImgSrc (tokenRow toFixed token) = "/placeholder.svg")
  /\ (Token.symbol token = "" -> tokenSymbol (tokenRow toFixed token) = "(N/A)")
  /\ (Token.name token <> "" -> tokenName (tokenRow toFixed token) = Token.name token)
  /\ (Token.logoURI token <> "" ->
      tokenImgSrc (tokenRow toFixed token) = Token.logoURI token)
  /\ (Token.symbol token <> "" ->
      tokenSymbol (tokenRow toFixed token) = "(" ++ Token.symbol token ++ ")").
Proof.
  unfold tokenRow. cbn [tokenName tokenImgAlt tokenImgSrc tokenSymbol].
  split; [now apply or_else_not_empty|].
  split; [reflexivity|].
  split; [now apply or_else_not_empty|].
  split.
  { exists (or_else (Token.symbol token) "N/A").
    split; [now apply or_else_not_empty | reflexivity]. }
  split; [now intros ->|].
  split; [now intros ->|].
  split; [now intros ->|].
  split; [apply or_else_same|].
  split; [apply or_else_same|].
  intros H. now rewrite or_else_same.
Qed.

(** X14: a numeric cell of a token row shows "N/A" when its number is
    absent: the balance cell is "N/A", the value and price cells "$N/A".  When
    the number is there, and as [toFixed] never returns the empty string, the
    cell shows the balance with four decimals, the value with two and the
    price with four, the last two after "$". *)
Theorem token_numbers_fallback (toFixed : float -> nat -> string) (token : Token.t) :
  (forall x digits, toFixed x digits <> "") ->
  tokenBalance (tokenRow toFixed token) =
    match Token.uiAmount token with
    | Some x => toFixed x 4
    | None => "N/A"
    end
  /\ tokenValue (tokenRow toFixed token) =
       match Token.valueUsd token with
       | Some x => "$" ++ toFixed x 2
       | None => "$N/A"
       end
  /\ tokenPrice (tokenRow toFixed token) =
       match Token.priceUsd token with
       | Some x => "$" ++ toFixed x 4
       | None => "$N/A"
       end.
Proof.
  intros H. unfold tokenRow. cbn [tokenBalance tokenValue tokenPrice].
  destruct (Token.uiAmount token), (Token.valueUsd token), (Token.priceUsd token);
    simpl; now rewrite ?or_else_same by apply H.
Qed.

Lemma token_numbers_fallback_witness :
  tokenBalance (tokenRow sampleToFixed unpricedToken) = "0"
  /\ tokenValue (tokenRow sampleToFixed unpricedToken) = "$N/A"
  /\ tokenPrice (tokenRow sampleToFixed unpricedToken) = "$N/A".
Proof.
  apply (token_numbers_fallback sampleToFixed unpricedToken).
  intros x digits. discriminate.
Defined.

(** * The transactions tab *)

Section TransactionsMore.

Variable toFixed : float -> nat -> string.
Variable formatDistanceToNow : string -> Completion string.

Lemma transactionRow_Normal_inv (transaction : Transaction.t) (row : TransactionRow) :
  transactionRow toFixed formatDistanceToNow transaction = Normal row ->
  exists time,
    formatDistanceToNow (Transaction.blockTime transaction) = Normal time
    /\ row =
       {| txAction := Transaction.mainAction transaction;
          txTime := time;
          txImgSrc :=
            or_default (BalanceChange.logoURI <$> Transaction.balanceChange transaction !! 0)
              "/placeholder.svg";
          txImgAlt := BalanceChange.symbol <$> Transaction.balanceChange transaction !! 0;
          txSymbol := BalanceChange.symbol <$> Transaction.balanceChange transaction !! 0;
          txAmount :=
            (fun b => toFixed (BalanceChange.uiAmount b) 6)
              <$> Transaction.balanceChange transaction !! 0 |}.
Proof.
  unfold transactionRow.
  destruct (formatDistanceToNow (Transaction.blockTime transaction)) as [time|];
    simpl; [|discriminate].
  intros [= <-]. now exists time.
Qed.

Lemma transactionRow_Throw (transaction : Transaction.t) (e : Exception) :
  formatDistanceToNow (Transaction.blockTime transaction) = Throw e ->
  transactionRow toFixed formatDistanceToNow transaction = Throw e.
Proof. intros H. unfold transactionRow. now rewrite H. Qed.

Lemma transactionRow_Normal (transaction : Transaction.t) (time : string) :
  formatDistanceToNow (Transaction.blockTime transaction) = Normal time ->
  exists row, transactionRow toFixed formatDistanceToNow transaction = Normal row.
Proof. intros H. unfold transactionRow. rewrite H. simpl. eauto. Qed.

End TransactionsMore.

(** X15: a transaction row shows the main action, the age of the block
    time and the first balance change, and nothing else: two transactions
    that agree on these three render the same row, whatever their other
    balance changes, fee, status, parties, hash or contract label. *)
Theorem transaction_row_reads_first_change
    (toFixed : float -> nat -> string)
    (formatDistanceToNow : string -> Completion string)
    (t t' : Transaction.t) :
  Transaction.mainAction t = Transaction.mainAction t' ->
  Transaction.blockTime t = Transaction.blockTime t' ->
  Transaction.balanceChange t !! 0 = Transaction.balanceChange t' !! 0 ->
  transactionRow toFixed formatDistanceToNow t
  = transactionRow toFixed formatDistanceToNow t'.
Proof. intros Ha Ht Hb. unfold transactionRow. now rewrite Ha, Ht, Hb. Qed.

Lemma transaction_row_reads_first_change_witness :
  transactionRow sampleToFixed sampleDistance receivedTransaction
  = transactionRow sampleToFixed sampleDistance sameRowTransaction.
Proof.
  apply (transaction_row_reads_first_change sampleToFixed sampleDistance
           receivedTransaction sameRowTransaction); reflexivity.
Defined.

(** X16: in a transaction row that renders, the image source is never
    blank, the image description is the symbol, and symbol and amount are
    absent exactly when the transaction has no balance change. *)
Theorem transaction_row_absent_iff_empty
    (toFixed : float -> nat -> string)
    (formatDistanceToNow : string -> Completion string)
    (transaction : Transaction.t) (row : TransactionRow) :
  transactionRow toFixed formatDistanceToNow transaction = Normal row ->
  txImgSrc row <> ""
  /\ txImgAlt row = txSymbol row
  /\ (txSymbol row = None <-> Transaction.balanceChange transaction = [])
  /\ (txAmount row = None <-> Transaction.balanceChange transaction = []).
Proof.
  intros (time & _ & ->)%transactionRow_Normal_inv.
  cbn [txImgSrc txImgAlt txSymbol txAmount].
  destruct (Transaction.balanceChange transaction) as [|b rest]; simpl.
  - repeat split; discriminate.
  - repeat split; try discriminate. now apply or_else_not_empty.
Qed.

Lemma transaction_row_absent_iff_empty_witness :
  "/placeholder.svg" <> ""
  /\ Some "USDC" = Some "USDC"
  /\ (Some "USDC" = None <-> [usdcChange] = [])
  /\ (Some "0" = None <-> [usdcChange] = []).
Proof.
  exact (transaction_row_absent_iff_empty sampleToFixed sampleDistance receivedTransaction
           {| txAction := "received"; txTime := "1 day ago";
              txImgSrc := "/placeholder.svg"; txImgAlt := Some "USDC";
              txSymbol := Some "USDC"; txAmount := Some "0" |} eq_refl).
Defined.

(** X17: when the transactions tab renders, it shows one row per
    transaction, in the order of [recentTransactions], each with the main
    action of its transaction, and every block time has formatted. *)
Theorem transactions_tab_rows
    (toFixed : float -> nat -> string)
    (formatDistanceToNow : string -> Completion string)
    (p : WalletAnalysisProps) (rows : list TransactionRow) :
  transactionsTab toFixed formatDistanceToNow p = Normal rows ->
  length rows = length (recentTransactions p)
  /\ map txAction rows = map Transaction.mainAction (recentTransactions p)
  /\ Forall (fun t => exists time,
                 formatDistanceToNow (Transaction.blockTime t) = Normal time)
       (recentTransactions p).
Proof.
  unfold transactionsTab. intros H%mapM_Normal_inv.
  induction H as [|t row txs rows Hrow _ (IH1 & IH2 & IH3)]; [now repeat split|].
  apply transactionRow_Normal_inv in Hrow as (time & Htime & ->).
  repeat split; simpl; [now f_equal | now f_equal |].
  constructor; eauto.
Qed.

Lemma transactions_tab_rows_witness :
  length [ {| txAction := "transfer"; txTime := "1 day ago";
              txImgSrc := "/placeholder.svg"; txImgAlt := None;
              txSymbol := None; txAmount := None |} ] = 1
  /\ ["transfer"] = ["transfer"]
  /\ Forall (fun t => exists time, sampleDistance (Transaction.blockTime t) = Normal time)
       [emptyTransaction].
Proof.
  exact (transactions_tab_rows sampleToFixed sampleDistance
           {| totalValue := 0; tokenCount := 0; topTokens := [];
              recentTransactions := [emptyTransaction]; swapActivity := sentinel;
              overallPNL := "0"; pnlPercentage := "0"; pnlByToken := [];
              analysis := "" |}
           _ eq_refl).
Defined.

(** X18: the first transaction whose block time fails to format aborts the
    whole transactions tab with its exception; the rows before it are lost. *)
Theorem transactions_tab_first_failure
    (toFixed : float -> nat -> string)
    (formatDistanceToNow : string -> Completion string)
    (p : WalletAnalysisProps) (before after : list Transaction.t)
    (t : Transaction.t) (e : Exception) :
  recentTransactions p = (before ++ t :: after)%list ->
  Forall (fun t' => exists time,
              formatDistanceToNow (Transaction.blockTime t') = Normal time) before ->
  formatDistanceToNow (Transaction.blockTime t) = Throw e ->
  transactionsTab toFixed formatDistanceToNow p = Throw e.
Proof.
  intros Hp Hbefore Ht. unfold transactionsTab. rewrite Hp. clear p Hp.
  induction Hbefore as [|t' before [time Htime] _ IH]; simpl.
  - now rewrite (transactionRow_Throw toFixed formatDistanceToNow t e Ht).
  - destruct (transactionRow_Normal toFixed formatDistanceToNow t' time Htime) as [row ->].
    simpl. now rewrite IH.
Qed.

Lemma transactions_tab_first_failure_witness :
  transactionsTab sampleToFixed
    (fun blockTime => if String.eqb blockTime "" then Throw RangeError else Normal "now")
    {| totalValue := 0; tokenCount := 0; topTokens := [];
       recentTransactions :=
         [emptyTransaction;
          {| Transaction.balanceChange := [];
             Transaction.blockNumber := 1;
             Transaction.blockTime := "";
             Transaction.contractLabel := Transaction.contractLabel emptyTransaction;
             Transaction.fee := 0;
             Transaction.formattedBlockTime := "";
             Transaction.from := "";
             Transaction.mainAction := "unknown";
             Transaction.status := false;
             Transaction.to := "";
             Transaction.txHash := "" |};
          receivedTransaction];
       swapActivity := sentinel; overallPNL := "0"; pnlPercentage := "0";
       pnlByToken := []; analysis := "" |}
  = Throw RangeError.
Proof.
  eapply (transactions_tab_first_failure _ _ _ [emptyTransaction] [receivedTransaction]).
  - reflexivity.
  - repeat constructor. now exists "now".
  - reflexivity.
Defined.

(** * The tab bar *)

(** X20: in every state exactly one tab button is active (underlined and
    highlighted): the button whose click selects the state the component is
    in.  Clicking the active button therefore changes nothing. *)
Theorem one_active_tab_button (activeTab : Tab) :
  length (List.filter underline (tabBar activeTab)) = 1
  /\ Forall (fun b => underline b = true <-> buttonOnClick b = activeTab) (tabBar activeTab)
  /\ Forall (fun b =>
               buttonClasses b !! 1 =
               Some (if underline b then "text-purple-400 bg-gray-800"
                     else "text-gray-400 hover:text-gray-200 hover:bg-gray-800"))
       (tabBar activeTab)
  /\ map buttonOnClick (tabBar activeTab) = [overview; tokens; transactions; swaps].
Proof.
  destruct activeTab; (split; [reflexivity|]); (split; [|split; [|reflexivity]]);
    repeat constructor; simpl; congruence.
Qed.
